(** * Oraculo de libros: fragment selection, junk filtering and the run loop

    A shallow embedding of [src/index.js].  JavaScript strings are sequences
    of UTF-16 code units; every operation the program applies to them
    ([length], [slice], [split], [includes], [trim], the regular expressions
    of [normalizeText] and the digit class) works on code units, so a string is
    a [list N] here.  The only operation that needs the Unicode tables is
    [toLowerCase], which is a parameter of the development. *)

From Stdlib Require Import String Ascii.
From Stdlib Require Import Floats.SpecFloat.
From Stdlib Require Import NArith Arith Bool Lia List.
Import ListNotations.
Local Open Scope list_scope.

Set Warnings "-register-all".

Set Implicit Arguments.

(** ** Strings as code-unit sequences *)

Module Js.

Definition jsstring := list N.

(** An ASCII literal of the source, as code units. *)
Definition lit (s : string) : jsstring :=
  map N_of_ascii (list_ascii_of_string s).

Definition TAB : N := 9.
Definition LF : N := 10.
Definition CR : N := 13.
Definition SP : N := 32.

Fixpoint eqs (a b : jsstring) : bool :=
  match a, b with
  | [], [] => true
  | x :: a', y :: b' => (x =? y)%N && eqs a' b'
  | _, _ => false
  end.

(** [h] is a prefix of [s] ([s.startsWith(h)]). *)
Fixpoint startsWith (s h : jsstring) {struct h} : bool :=
  match h, s with
  | [], _ => true
  | x :: h', y :: s' => (x =? y)%N && startsWith s' h'
  | _ :: _, [] => false
  end.

(** [s.includes(h)]: [h] occurs at some position of [s]. *)
Fixpoint includes (s h : jsstring) : bool :=
  startsWith s h ||
  match s with
  | [] => false
  | _ :: r => includes r h
  end.

Definition endsWith (s h : jsstring) : bool :=
  startsWith (rev s) (rev h).

Fixpoint dropWhile (p : N -> bool) (s : jsstring) : jsstring :=
  match s with
  | [] => []
  | c :: r => if p c then dropWhile p r else s
  end.

(** The code units [String.prototype.trim] strips: WhiteSpace and
    LineTerminator of ECMAScript (TAB, LF, VT, FF, CR, SP, NBSP, U+1680,
    U+2000..U+200A, U+2028, U+2029, U+202F, U+205F, U+3000, U+FEFF). *)
Definition isWhiteSpace (c : N) : bool :=
  ((9 <=? c) && (c <=? 13) || (c =? 32) || (c =? 160) || (c =? 5760)
   || (8192 <=? c) && (c <=? 8202) || (c =? 8232) || (c =? 8233)
   || (c =? 8239) || (c =? 8287) || (c =? 12288) || (c =? 65279))%N.

Definition trimStart (s : jsstring) : jsstring := dropWhile isWhiteSpace s.
Definition trimEnd (s : jsstring) : jsstring := rev (dropWhile isWhiteSpace (rev s)).
Definition trim (s : jsstring) : jsstring := trimEnd (trimStart s).

(** [parts.join(sep)]. *)
Fixpoint join (sep : jsstring) (parts : list jsstring) : jsstring :=
  match parts with
  | [] => []
  | [p] => p
  | p :: rest => p ++ sep ++ join sep rest
  end.

(** [s.split("\n")]: cut at every LF; [cur] is the piece being read, reversed. *)
Fixpoint splitLines (cur : jsstring) (s : jsstring) : list jsstring :=
  match s with
  | [] => [rev cur]
  | c :: r => if (c =? LF)%N then rev cur :: splitLines [] r
              else splitLines (c :: cur) r
  end.

(** [s.split("\n\n")]: cut at every occurrence of two LF, scanning from the
    left; a third LF in a row starts the next piece. *)
Fixpoint splitBlank (cur : jsstring) (s : jsstring) : list jsstring :=
  match s with
  | [] => [rev cur]
  | c :: r =>
      match r with
      | d :: r' =>
          if ((c =? LF) && (d =? LF))%N then rev cur :: splitBlank [] r'
          else splitBlank (c :: cur) r
      | [] => [rev (c :: cur)]
      end
  end.

(** [Boolean(s)] on a string: the empty string is the only falsy one. *)
Definition nonEmpty (s : jsstring) : bool :=
  match s with [] => false | _ => true end.

End Js.
Import Js.

(** ** Text Normalizer *)

(** [t.replace(/\r/g, " ")]. *)
Definition replaceCR (t : jsstring) : jsstring :=
  map (fun c => if (c =? CR)%N then SP else c) t.

Definition isBlank (c : N) : bool := ((c =? SP) || (c =? TAB))%N.

(** [t.replace(/[ \t]+/g, " ")]: every maximal run of spaces and tabs becomes
    one space.  [inRun] says that the run's space has been written already. *)
Fixpoint collapseBlanks (inRun : bool) (t : jsstring) : jsstring :=
  match t with
  | [] => []
  | c :: r =>
      if isBlank c then
        if inRun then collapseBlanks true r else SP :: collapseBlanks true r
      else c :: collapseBlanks false r
  end.

(** What a finished run of [k] LF is replaced by: the greedy [\n{3,}] takes a
    whole run of three or more, shorter runs are not matched. *)
Definition flushNewlines (k : nat) : jsstring :=
  if 3 <=? k then [LF; LF] else repeat LF k.

(** [t.replace(/\n{3,}/g, "\n\n")]; [k] LF of the current run have been read. *)
Fixpoint squeezeNewlines (k : nat) (t : jsstring) : jsstring :=
  match t with
  | [] => flushNewlines k
  | c :: r =>
      if (c =? LF)%N then squeezeNewlines (S k) r
      else flushNewlines k ++ c :: squeezeNewlines 0 r
  end.

(** The three replacements of [normalizeText], before the final [trim]. *)
Definition collapsed (t : jsstring) : jsstring :=
  squeezeNewlines 0 (collapseBlanks false (replaceCR t)).

Definition normalizeText (t : jsstring) : jsstring :=
  trim (collapsed t).

(** ** Predicates used to state the properties *)

(** With [cur] code units satisfying [p] just before [s], no run of code
    units satisfying [p] reaches length [k]. *)
Fixpoint runsBelow (p : N -> bool) (k cur : nat) (s : jsstring) : bool :=
  match s with
  | [] => true
  | c :: r =>
      if p c then (S cur <? k) && runsBelow p k (S cur) r
      else runsBelow p k 0 r
  end.

Definition isSP (c : N) : bool := (c =? SP)%N.
Definition isLF (c : N) : bool := (c =? LF)%N.

(** Some code unit of [s] is not white space. *)
Definition hasText (s : jsstring) : bool :=
  existsb (fun c => negb (isWhiteSpace c)) s.

(** [s] neither starts nor ends with white space. *)
Definition trimmed (s : jsstring) : Prop :=
  (forall c r, s = c :: r -> isWhiteSpace c = false) /\
  (forall r c, s = r ++ [c] -> isWhiteSpace c = false).

(** ** Host functions

    What the program takes from the JavaScript runtime and from Node and that
    needs tables or a parser of its own: Unicode lower-casing, [JSON.parse]
    and the [path] module. *)

Inductive jsvalue : Type :=
| VUndefined
| VNull
| VBool (b : bool)
| VNumber (x : spec_float)
| VString (s : jsstring)
| VArray (items : list jsvalue)
| VObject (props : list (jsstring * jsvalue)).

Class Host : Type := {
  (** [String.prototype.toLowerCase]. *)
  toLowerCase : jsstring -> jsstring;
  (** [JSON.parse]; [None] when it throws a SyntaxError.  The properties of a
      parsed object are listed once per key. *)
  JSON_parse : jsstring -> option jsvalue;
  (** [path.join(dir, name)] and [path.basename(p)]. *)
  path_join : jsstring -> jsstring -> jsstring;
  path_basename : jsstring -> jsstring
}.

(** The lower-case mapping of an ASCII code unit. *)
Definition asciiLower (c : N) : N :=
  if ((65 <=? c) && (c <=? 90))%N then (c + 32)%N else c.

Definition isAscii (c : N) : bool := (c <? 128)%N.

(** What Unicode default case conversion guarantees on ASCII: a stretch of
    ASCII code units is lowered in place, whatever surrounds it. *)
Definition lowersAscii (lower : jsstring -> jsstring) : Prop :=
  forall a w b, forallb isAscii w = true ->
    exists a' b', lower (a ++ w ++ b) = a' ++ map asciiLower w ++ b'.

(** ** Junk Classifier *)

Section Classifier.
Context {host : Host}.

(** i-acute, U+00ED, as the source file has it in two of the hints. *)
Definition I_ACUTE : N := 237.

Definition junkHints : list jsstring :=
  [ lit "isbn";
    lit "copyright";
    lit "todos los derechos reservados";
    I_ACUTE :: lit "ndice";
    lit "indice";
    lit "tabla";
    lit "cap" ++ I_ACUTE :: lit "tulo";
    lit "capitulo";
    lit "contenido";
    lit "contents" ].

(** [/\d/]: the ASCII digits. *)
Definition isDigit (c : N) : bool := ((48 <=? c) && (c <=? 57))%N.

(** [fragment.length < 220]. *)
Definition tooShort (fragment : jsstring) : bool :=
  length fragment <? 220.

(** [junkHints.some((h) => s.includes(h))] with [s = fragment.toLowerCase()]. *)
Definition hasJunkHint (fragment : jsstring) : bool :=
  let s := toLowerCase fragment in
  existsb (fun h => includes s h) junkHints.

(** [digits / fragment.length > 0.08].  Both sides are doubles in the source;
    for lengths below 2^50 the correctly rounded quotient is above the double
    nearest 0.08 exactly when 25 * digits exceeds 2 * length. *)
Definition digitHeavy (fragment : jsstring) : bool :=
  let digits := length (filter isDigit fragment) in
  2 * length fragment <? 25 * digits.

(** [lines.length >= 8 && shortLines / lines.length > 0.6], the quotient
    compared as 5 * shortLines against 3 * lines.length (same remark). *)
Definition lineShape (fragment : jsstring) : bool :=
  let lines := filter nonEmpty (splitLines [] fragment) in
  let shortLines := length (filter (fun l => length (trim l) <? 30) lines) in
  (8 <=? length lines) && (3 * length lines <? 5 * shortLines).

Definition looksLikeJunk (fragment : jsstring) : bool :=
  if tooShort fragment then true
  else if hasJunkHint fragment then true
  else if digitHeavy fragment then true
  else if lineShape fragment then true
  else false.

(** ** Fragment Selector *)

(** [text.split("\n\n").map((p) => p.trim()).filter(Boolean)]. *)
Definition paragraphs (text : jsstring) : list jsstring :=
  filter nonEmpty (map trim (splitBlank [] text)).

(** [xs.filter(Boolean)] on array reads: [undefined] (an index past the end)
    and the empty string are dropped. *)
Fixpoint definedNonEmpty (xs : list (option jsstring)) : list jsstring :=
  match xs with
  | [] => []
  | Some p :: r => if nonEmpty p then p :: definedNonEmpty r else definedNonEmpty r
  | None :: r => definedNonEmpty r
  end.

(** [[paras[i], paras[i + 1], paras[i + 2]].filter(Boolean).join("\n\n")]. *)
Definition window (paras : list jsstring) (i : nat) : jsstring :=
  join [LF; LF]
    (definedNonEmpty [nth_error paras i; nth_error paras (i + 1); nth_error paras (i + 2)]).

(** [window.slice(0, 1600)]. *)
Definition clip (w : jsstring) : jsstring := firstn 1600 w.

(** The sampling loop with [n] attempts left; [draw k] is the value of
    [Math.floor(Math.random() * paras.length)] at attempt [k]. *)
Fixpoint sample (draw : nat -> nat) (paras : list jsstring) (n attempt : nat)
  : option jsstring :=
  match n with
  | 0 => None
  | S n' =>
      let i := draw attempt in
      let clipped := clip (window paras i) in
      if looksLikeJunk clipped then sample draw paras n' (S attempt)
      else Some clipped
  end.

Definition pickFragment (draw : nat -> nat) (fullText : jsstring) : option jsstring :=
  let text := normalizeText fullText in
  if length text <? 800 then None
  else
    let paras := paragraphs text in
    if length paras <? 5 then None
    else sample draw paras 12 0.

End Classifier.

(** ** Run Orchestrator *)

(** A thrown value, seen through what the handler of [runOnce] reads of it:
    [err?.message] (empty when absent) and [String(err)]. *)
Record exn : Type := { exn_message : jsstring; exn_string : jsstring }.

Inductive result (A : Type) : Type :=
| Ok (a : A)
| Throw (e : exn).
Arguments Ok {A} a.
Arguments Throw {A} e.

(** [fs.Dirent]: the name and the answer of [isFile()]. *)
Record Dirent : Type := { d_name : jsstring; d_isFile : bool }.

(** The bodies of the notifications.  Each constructor stands for one
    template literal of [runOnce], with the values interpolated in it. *)
Inductive message : Type :=
| NoPdfs (dir : jsstring)
| NoFragment (bookName : jsstring)
| Quote (cita reflexion : jsvalue) (bookName filePath : jsstring)
| FrontMatter (bookName : jsstring)
| ErrorText (text : jsstring).

(** Calls that leave the program, in the order they are made. *)
Inductive event : Type :=
| EvReaddir (dir : jsstring)
| EvExtract (filePath : jsstring)
| EvChat (bookName fragment : jsstring)
| EvAppend (cita reflexion : jsvalue) (bookName : jsstring)
| EvNotify (title : jsstring) (body : message).

(** What the outside answers during one run.  Calls that can be made more than
    once in a run are answered by call number. *)
Record World : Type := {
  (** [process.env.BOOKS_DIR || process.cwd()] *)
  BOOKS_DIR : jsstring;
  (** [fs.readdirSync(dir, { withFileTypes: true })] *)
  fs_readdir : jsstring -> result (list Dirent);
  (** the value of [Math.floor(Math.random() * n)] at the k-th use *)
  math_random : nat -> nat;
  (** [fs.readFileSync] then [pdfParse]: [parsed.text], [None] when falsy *)
  pdf_text : jsstring -> result (option jsstring);
  (** [groq.chat.completions.create]: [res.choices?.[0]?.message?.content];
      the prompt is a fixed template around the book name and the fragment *)
  groq_chat : nat -> jsstring -> jsstring -> result (option jsstring);
  (** [ensureDir] then [fs.appendFileSync]: the path of the day's file *)
  fs_appendLog : jsvalue -> jsvalue -> jsstring -> result jsstring;
  (** [notifier.notify] *)
  notifier_notify : nat -> jsstring -> message -> result unit
}.

Definition A_ACUTE : N := 225.
Definition QUOTE : N := 34.

(** The three notification titles: "Oraculo" (with a-acute), the books emoji
    U+1F4DA followed by " Oraculo de tus Libros", and "Oraculo - Error". *)
Definition titleOraculo : jsstring := lit "Or" ++ A_ACUTE :: lit "culo".
Definition titleBooks : jsstring :=
  [55357%N; 56538%N] ++ lit " Or" ++ A_ACUTE :: lit "culo de tus Libros".
Definition titleError : jsstring := lit "Or" ++ A_ACUTE :: lit "culo - Error".

(** [String(err?.message || err)]. *)
Definition errorText (e : exn) : jsstring :=
  if nonEmpty (exn_message e) then exn_message e else exn_string e.

(** What [path.basename(undefined)] throws. *)
Definition basenameTypeError : exn :=
  let m := lit "The " ++ QUOTE :: lit "path" ++ QUOTE
           :: lit " argument must be of type string. Received undefined" in
  {| exn_message := m;
     exn_string := lit "TypeError [ERR_INVALID_ARG_TYPE]: " ++ m |}.

(** Truthiness of a value. *)
Definition truthy (v : jsvalue) : bool :=
  match v with
  | VUndefined | VNull => false
  | VBool b => b
  | VNumber (S754_zero _) | VNumber S754_nan => false
  | VNumber _ => true
  | VString s => nonEmpty s
  | VArray _ | VObject _ => true
  end.

Fixpoint lookup (key : jsstring) (props : list (jsstring * jsvalue)) : jsvalue :=
  match props with
  | [] => VUndefined
  | (k, v) :: r => if eqs k key then v else lookup key r
  end.

(** [json?.key] for a key that no prototype defines ([cita], [reflexion]):
    the property of a parsed object, [undefined] on anything else. *)
Definition getProp (json : jsvalue) (key : jsstring) : jsvalue :=
  match json with
  | VObject props => lookup key props
  | _ => VUndefined
  end.

Definition SKIP : jsstring := lit "SKIP".
Definition cita : jsstring := lit "cita".
Definition reflexion : jsstring := lit "reflexion".

(** A call together with what it threw, if it threw. *)
Definition call : Type := event * option exn.

Definition failure {A} (answer : result A) : option exn :=
  match answer with
  | Ok _ => None
  | Throw e => Some e
  end.

(** A call that did not throw. *)
Definition done (ev : event) : call := (ev, None).

Definition isChat (c : call) : bool :=
  match fst c with EvChat _ _ => true | _ => false end.

Definition isNotify (c : call) : bool :=
  match fst c with EvNotify _ _ => true | _ => false end.

Definition countChat (tr : list call) : nat := length (filter isChat tr).

Definition countNotify (tr : list call) : nat := length (filter isNotify tr).

(** [content?.trim() || ""] for the content of the model's first choice. *)
Definition responseText (content : option jsstring) : jsstring :=
  match content with
  | Some c => trim c
  | None => []
  end.

Section Orchestrator.
Context {host : Host}.
Variable W : World.

(** Computations of a run: they read the calls made so far, extend them and
    return or throw. *)
Definition M (A : Type) : Type := list call -> result A * list call.

Definition ret {A} (a : A) : M A := fun tr => (Ok a, tr).

Definition bind {A B} (m : M A) (f : A -> M B) : M B :=
  fun tr =>
    match m tr with
    | (Ok a, tr') => f a tr'
    | (Throw e, tr') => (Throw e, tr')
    end.

Definition throw {A} (e : exn) : M A := fun tr => (Throw e, tr).

(** [try { body } catch (err) { handler(err) }]. *)
Definition tryCatch {A} (body : M A) (handler : exn -> M A) : M A :=
  fun tr =>
    match body tr with
    | (Throw e, tr') => handler e tr'
    | r => r
    end.

(** An outside call: it is recorded, and the world's answer is its outcome. *)
Definition perform {A} (ev : event) (answer : result A) : M A :=
  fun tr => (answer, tr ++ [(ev, failure answer)]).

Notation "x <- m ;; k" := (bind m (fun x => k))
  (at level 61, m at next level, right associativity).
Notation "m ;; k" := (bind m (fun _ => k))
  (at level 61, right associativity).

Definition notify (title : jsstring) (body : message) : M unit :=
  fun tr => perform (EvNotify title body) (notifier_notify W (countNotify tr) title body) tr.

Definition isPdf (d : Dirent) : bool :=
  d_isFile d && endsWith (toLowerCase (d_name d)) (lit ".pdf").

Definition listPdfs (dir : jsstring) : M (list jsstring) :=
  items <- perform (EvReaddir dir) (fs_readdir W dir) ;;
  ret (map (fun d => path_join dir (d_name d)) (filter isPdf items)).

(** [arr[Math.floor(Math.random() * arr.length)]], [None] for [undefined]. *)
Definition randomPick (k : nat) (arr : list jsstring) : option jsstring :=
  nth_error arr (math_random W k).

(** [parsed.text || ""]. *)
Definition extractPdfText (filePath : jsstring) : M jsstring :=
  text <- perform (EvExtract filePath) (pdf_text W filePath) ;;
  ret (match text with Some t => t | None => [] end).

(** [res.choices?.[0]?.message?.content?.trim() || ""]. *)
Definition askGroqForQuote (bookName fragment : jsstring) : M jsstring :=
  fun tr =>
    (content <- perform (EvChat bookName fragment)
                        (groq_chat W (countChat tr) bookName fragment) ;;
     ret (responseText content)) tr.

Definition safeJsonParse (str : jsstring) : jsvalue :=
  match JSON_parse str with
  | Some v => v
  | None => VNull
  end.

(** The two tests of the loop body that end in [continue]. *)
Definition softFailure (out : jsstring) : bool :=
  eqs out SKIP || negb (truthy (getProp (safeJsonParse out) cita)).

Definition saveQuoteToDailyMd (c r : jsvalue) (bookName : jsstring) : M jsstring :=
  perform (EvAppend c r bookName) (fs_appendLog W c r bookName).

(** [for (let i = 0; i < 6; i++) { ... }] with [n] iterations left.  The
    result is [true] when the body has executed [return]. *)
Fixpoint queryLoop (n : nat) (bookName fragment : jsstring) : M bool :=
  match n with
  | 0 => ret false
  | S n' =>
      out <- askGroqForQuote bookName fragment ;;
      if eqs out SKIP then queryLoop n' bookName fragment
      else
        let json := safeJsonParse out in
        if negb (truthy (getProp json cita)) then queryLoop n' bookName fragment
        else
          filePath <- saveQuoteToDailyMd (getProp json cita) (getProp json reflexion)
                                         bookName ;;
          notify titleBooks
            (Quote (getProp json cita) (getProp json reflexion) bookName filePath) ;;
          ret true
  end.

(** The block guarded by [try] in [runOnce]; [!fragment] holds of [null] and
    of the empty string. *)
Definition runBody : M unit :=
  pdfs <- listPdfs (BOOKS_DIR W) ;;
  match pdfs with
  | [] => notify titleOraculo (NoPdfs (BOOKS_DIR W))
  | _ :: _ =>
    match randomPick 0 pdfs with
    | None => throw basenameTypeError
    | Some chosen =>
        let bookName := path_basename chosen in
        fullText <- extractPdfText chosen ;;
        match pickFragment (fun k => math_random W (S k)) fullText with
        | None => notify titleOraculo (NoFragment bookName)
        | Some fragment =>
            if negb (nonEmpty fragment) then notify titleOraculo (NoFragment bookName)
            else
              returned <- queryLoop 6 bookName fragment ;;
              if returned then ret tt
              else notify titleOraculo (FrontMatter bookName)
        end
    end
  end.

Definition runOnce : M unit :=
  tryCatch runBody (fun err => notify titleError (ErrorText (errorText err))).

(** What the loop body does after an answer that passes both tests, as a
    computation of its own. *)
Definition keepQuote (bookName : jsstring) (json : jsvalue) : M bool :=
  filePath <- saveQuoteToDailyMd (getProp json cita) (getProp json reflexion) bookName ;;
  notify titleBooks
    (Quote (getProp json cita) (getProp json reflexion) bookName filePath) ;;
  ret true.

End Orchestrator.

(** ** Predicates on the calls of a run *)

(** No call of [tr] threw. *)
Definition clean (tr : list call) : Prop := Forall (fun c => snd c = None) tr.

(** What a computation may add to the calls made so far: calls that did not
    throw, closed, when the computation throws [e], by at most one call that
    threw [e]; at most [n] of them to the model, all for the book [b] and the
    fragment [f]. *)
Definition adds {A} (b f : jsstring) (n : nat) (tr : list call)
                (out : result A * list call) : Prop :=
  exists added,
    snd out = tr ++ added
    /\ countChat added <= n
    /\ Forall (fun c => isChat c = true -> fst c = EvChat b f) added
    /\ match fst out with
       | Ok _ => clean added
       | Throw e =>
           exists pre, clean pre
                       /\ (added = pre \/ exists ev, added = pre ++ [(ev, Some e)])
       end.

(** The calls a run has made when it enters the loop. *)
Definition callsBeforeLoop (W : World) (chosen : jsstring) : list call :=
  [done (EvReaddir (BOOKS_DIR W)); done (EvExtract chosen)].


(** The run gets as far as the loop: the folder lists a PDF, [chosen] is the
    one picked, its text is extracted and [fragment] is selected from it. *)
Definition reachesLoop {host : Host} (W : World) (chosen bookName fragment : jsstring) : Prop :=
  exists items text,
    fs_readdir W (BOOKS_DIR W) = Ok items
    /\ randomPick W 0 (map (fun d => path_join (BOOKS_DIR W) (d_name d)) (filter isPdf items))
       = Some chosen
    /\ bookName = path_basename chosen
    /\ pdf_text W chosen = Ok text
    /\ pickFragment (fun k => math_random W (S k))
                    (match text with Some t => t | None => [] end) = Some fragment
    /\ nonEmpty fragment = true.

(** The paths [listPdfs] returns for the entries [items] of the folder. *)
Definition pdfsOf {host : Host} (W : World) (items : list Dirent) : list jsstring :=
  map (fun d => path_join (BOOKS_DIR W) (d_name d)) (filter isPdf items).

(** The first [k] answers of the model, counted from call [base], are soft
    failures. *)
Definition softRange {host : Host} (W : World) (b f : jsstring) (base k : nat) : Prop :=
  forall i, i < k ->
    exists c, groq_chat W (base + i) b f = Ok c /\ softFailure (responseText c) = true.

(** The error notification of the handler of [runOnce]. *)
Definition errorNotice (e : exn) : event :=
  EvNotify titleError (ErrorText (errorText e)).

Definition isAppend (c : call) : bool :=
  match fst c with EvAppend _ _ _ => true | _ => false end.

Definition isExtract (c : call) : bool :=
  match fst c with EvExtract _ => true | _ => false end.

Definition isReaddir (c : call) : bool :=
  match fst c with EvReaddir _ => true | _ => false end.

(** The ways the guarded block of [runOnce] ends, each with its result and the
    calls made: the listing throws; no PDF is listed; the pick is [undefined];
    the extraction throws; no fragment is found; a call to the model throws;
    the append throws; the quote is appended and notified; the six answers
    are used up. *)
Inductive Body {host : Host} (W : World) : result unit -> list call -> Prop :=
| BodyListingThrows e :
    fs_readdir W (BOOKS_DIR W) = Throw e ->
    Body W (Throw e) [(EvReaddir (BOOKS_DIR W), Some e)]
| BodyNoPdfs items answer :
    fs_readdir W (BOOKS_DIR W) = Ok items ->
    pdfsOf W items = [] ->
    answer = notifier_notify W 0 titleOraculo (NoPdfs (BOOKS_DIR W)) ->
    Body W answer
      [done (EvReaddir (BOOKS_DIR W));
       (EvNotify titleOraculo (NoPdfs (BOOKS_DIR W)), failure answer)]
| BodyNoPick items :
    fs_readdir W (BOOKS_DIR W) = Ok items ->
    pdfsOf W items <> [] ->
    randomPick W 0 (pdfsOf W items) = None ->
    Body W (Throw basenameTypeError) [done (EvReaddir (BOOKS_DIR W))]
| BodyExtractThrows items chosen e :
    fs_readdir W (BOOKS_DIR W) = Ok items ->
    randomPick W 0 (pdfsOf W items) = Some chosen ->
    pdf_text W chosen = Throw e ->
    Body W (Throw e) [done (EvReaddir (BOOKS_DIR W)); (EvExtract chosen, Some e)]
| BodyNoFragment items chosen text answer :
    fs_readdir W (BOOKS_DIR W) = Ok items ->
    randomPick W 0 (pdfsOf W items) = Some chosen ->
    pdf_text W chosen = Ok text ->
    (forall f, pickFragment (fun k => math_random W (S k))
                            (match text with Some t => t | None => [] end) = Some f ->
               f = []) ->
    answer = notifier_notify W 0 titleOraculo (NoFragment (path_basename chosen)) ->
    Body W answer
      [done (EvReaddir (BOOKS_DIR W)); done (EvExtract chosen);
       (EvNotify titleOraculo (NoFragment (path_basename chosen)), failure answer)]
| BodyModelThrows chosen b f k e :
    reachesLoop W chosen b f ->
    k < 6 -> softRange W b f 0 k ->
    groq_chat W k b f = Throw e ->
    Body W (Throw e)
      (callsBeforeLoop W chosen ++ repeat (done (EvChat b f)) k ++ [(EvChat b f, Some e)])
| BodyAppendThrows chosen b f k json e :
    reachesLoop W chosen b f ->
    k < 6 -> softRange W b f 0 k ->
    truthy (getProp json cita) = true ->
    fs_appendLog W (getProp json cita) (getProp json reflexion) b = Throw e ->
    Body W (Throw e)
      (callsBeforeLoop W chosen ++ repeat (done (EvChat b f)) (S k)
       ++ [(EvAppend (getProp json cita) (getProp json reflexion) b, Some e)])
| BodyQuote chosen b f k json filePath answer :
    reachesLoop W chosen b f ->
    k < 6 -> softRange W b f 0 k ->
    truthy (getProp json cita) = true ->
    fs_appendLog W (getProp json cita) (getProp json reflexion) b = Ok filePath ->
    answer = notifier_notify W 0 titleBooks
               (Quote (getProp json cita) (getProp json reflexion) b filePath) ->
    Body W answer
      (callsBeforeLoop W chosen ++ repeat (done (EvChat b f)) (S k)
       ++ [done (EvAppend (getProp json cita) (getProp json reflexion) b);
           (EvNotify titleBooks
              (Quote (getProp json cita) (getProp json reflexion) b filePath),
            failure answer)])
| BodyFrontMatter chosen b f answer :
    reachesLoop W chosen b f ->
    softRange W b f 0 6 ->
    answer = notifier_notify W 0 titleOraculo (FrontMatter b) ->
    Body W answer
      (callsBeforeLoop W chosen ++ repeat (done (EvChat b f)) 6
       ++ [(EvNotify titleOraculo (FrontMatter b), failure answer)]).

(** What the calls of a run may be: a listing of the folder, the extraction
    of a listed PDF file, a call to the model with the book extracted and a
    usable fragment, the append of a truthy quote, a notification. *)
Definition allowed {host : Host} (W : World) (ev : event) : Prop :=
  match ev with
  | EvReaddir dir => dir = BOOKS_DIR W
  | EvExtract filePath =>
      exists items d,
        fs_readdir W (BOOKS_DIR W) = Ok items /\ In d items /\ d_isFile d = true
        /\ endsWith (toLowerCase (d_name d)) (lit ".pdf") = true
        /\ filePath = path_join (BOOKS_DIR W) (d_name d)
  | EvChat b f => looksLikeJunk f = false /\ 220 <= length f /\ length f <= 1600
  | EvAppend c _ _ => truthy c = true
  | EvNotify _ _ => True
  end.

(** How a run ends after its guarded block made the notification [title],
    [body] as its only one, after the calls [tr]. *)
Definition endsWithNotice (W : World) (tr : list call) (title : jsstring) (body : message)
  : result unit * list call :=
  match notifier_notify W 0 title body with
  | Ok _ => (Ok tt, tr ++ [done (EvNotify title body)])
  | Throw e =>
      (notifier_notify W 1 titleError (ErrorText (errorText e)),
       tr ++ [(EvNotify title body, Some e);
              (errorNotice e,
               failure (notifier_notify W 1 titleError (ErrorText (errorText e))))])
  end.

(** ** A host and documents for closed examples *)

(** Lower-casing of Latin-1 text: A..Z and the accented capitals U+00C0..U+00DE
    (the multiplication sign U+00D7 apart) move 32 places up. *)
Definition latin1Lower (c : N) : N :=
  if ((65 <=? c) && (c <=? 90)
      || (192 <=? c) && (c <=? 222) && negb (c =? 215))%N
  then (c + 32)%N else c.

(** [s] between double quotes. *)
Definition quoted (s : jsstring) : jsstring := QUOTE :: s ++ [QUOTE].

(** The JSON text [{"cita":c,"reflexion":"Y"}], [c] being JSON text itself. *)
Definition responseWithCita (c : jsstring) : jsstring :=
  lit "{" ++ quoted cita ++ lit ":" ++ c ++ lit ","
  ++ quoted reflexion ++ lit ":" ++ quoted (lit "Y") ++ lit "}".

(** A parser that knows three responses: a quote [X], an empty quote and a
    null quote, each with the reflection [Y]. *)
Definition parseKnown (str : jsstring) : option jsvalue :=
  let object c := VObject [(cita, c); (reflexion, VString (lit "Y"))] in
  if eqs str (responseWithCita (quoted (lit "X"))) then Some (object (VString (lit "X")))
  else if eqs str (responseWithCita (quoted [])) then Some (object (VString []))
  else if eqs str (responseWithCita (lit "null")) then Some (object VNull)
  else None.

(** The part of [p] after its last slash; [cur] is that part so far, reversed. *)
Fixpoint afterLastSlash (cur : jsstring) (p : jsstring) : jsstring :=
  match p with
  | [] => rev cur
  | c :: r => if (c =? 47)%N then afterLastSlash [] r else afterLastSlash (c :: cur) r
  end.

(** A host for the examples.  Its [path_join] and [path_basename] are those
    of the [path] module on the paths of the examples: a folder without a
    trailing slash and a plain file name, where nothing is normalized. *)
Definition latin1Host : Host := {|
  toLowerCase := map latin1Lower;
  JSON_parse := parseKnown;
  path_join := fun dir name => dir ++ lit "/" ++ name;
  path_basename := afterLastSlash []
|}.

Definition letters (n : nat) : jsstring := repeat 97%N n.

(** [n] paragraphs, each [p], separated by blank lines. *)
Definition document (n : nat) (p : jsstring) : jsstring :=
  join [LF; LF] (repeat p n).

(** A world for closed examples: one PDF and one other file in the folder, a
    text of five paragraphs of 200 letters, every draw 0, a log file that can
    be appended to; the model's answers and the notifier's are given. *)
Definition sampleWorld (answers : nat -> result (option jsstring))
                       (notifier : nat -> result unit) : World := {|
  BOOKS_DIR := lit "/books";
  fs_readdir := fun _ =>
    Ok [ {| d_name := lit "Quijote.PDF"; d_isFile := true |};
         {| d_name := lit "notes.txt"; d_isFile := true |} ];
  math_random := fun _ => 0;
  pdf_text := fun _ => Ok (Some (document 5 (letters 200)));
  groq_chat := fun k _ _ => answers k;
  fs_appendLog := fun _ _ _ => Ok (lit "/logs/2026-01-01.md");
  notifier_notify := fun k _ _ => notifier k
|}.

(** An error with the given message; without a message [String(err)] is the
    name alone. *)
Definition errorWith (m : jsstring) : exn :=
  {| exn_message := m;
     exn_string := if nonEmpty m then lit "Error: " ++ m else lit "Error" |}.

(** Answers of the model: SKIP between white space, then text that is not
    JSON, then a quote. *)
Definition answersQuoteThird (k : nat) : result (option jsstring) :=
  match k with
  | 0 => Ok (Some (lit " SKIP" ++ [LF]))
  | 1 => Ok (Some (lit "no json"))
  | 2 => Ok (Some (responseWithCita (quoted (lit "X"))))
  | _ => Ok None
  end.

(** Answers of the model: always an object whose quote is the empty string. *)
Definition answersEmptyQuote (k : nat) : result (option jsstring) :=
  Ok (Some (responseWithCita (quoted []))).

(** A model that cannot be reached. *)
Definition answersNetworkDown (k : nat) : result (option jsstring) :=
  Throw (errorWith (lit "network")).

Definition notifierUp (k : nat) : result unit := Ok tt.
Definition notifierDown (k : nat) : result unit := Throw (errorWith (lit "no display")).

Definition sampleBook : jsstring := lit "Quijote.PDF".
Definition samplePath : jsstring := lit "/books/Quijote.PDF".
Definition sampleFragment : jsstring := document 3 (letters 200).

(** The sample world with another listing of the folder. *)
Definition withListing (items : list Dirent) (W : World) : World := {|
  BOOKS_DIR := BOOKS_DIR W;
  fs_readdir := fun _ => Ok items;
  math_random := math_random W;
  pdf_text := pdf_text W;
  groq_chat := groq_chat W;
  fs_appendLog := fs_appendLog W;
  notifier_notify := notifier_notify W
|}.

(** The sample world with another text in its PDF. *)
Definition withText (text : option jsstring) (W : World) : World := {|
  BOOKS_DIR := BOOKS_DIR W;
  fs_readdir := fs_readdir W;
  math_random := math_random W;
  pdf_text := fun _ => Ok text;
  groq_chat := groq_chat W;
  fs_appendLog := fs_appendLog W;
  notifier_notify := notifier_notify W
|}.

(** The sample world with a log that cannot be written. *)
Definition withReadOnlyLog (W : World) : World := {|
  BOOKS_DIR := BOOKS_DIR W;
  fs_readdir := fs_readdir W;
  math_random := math_random W;
  pdf_text := pdf_text W;
  groq_chat := groq_chat W;
  fs_appendLog := fun _ _ _ => Throw (errorWith (lit "EACCES"));
  notifier_notify := notifier_notify W
|}.

(** A folder without a PDF file: a text file, and a directory whose name
    ends in .pdf. *)
Definition folderWithoutPdf : list Dirent :=
  [ {| d_name := lit "notes.txt"; d_isFile := true |};
    {| d_name := lit "old.pdf"; d_isFile := false |} ].

(** Answers of the model: one soft failure, then the network is down. *)
Definition answersThenDown (k : nat) : result (option jsstring) :=
  match k with
  | 0 => Ok (Some (lit "SKIP"))
  | _ => Throw (errorWith (lit "network"))
  end.

(** ** Predicates for the properties beyond the claims *)

(** The code units of [s] that are not white space, in order. *)
Definition textOf (s : jsstring) : jsstring :=
  filter (fun c => negb (isWhiteSpace c)) s.

Definition isLatin1 (c : N) : bool := (c <? 256)%N.

(** What case conversion guarantees on Latin-1: a stretch of Latin-1 code
    units is lowered in place, one code unit each, whatever surrounds it. *)
Definition lowersLatin1 (lower : jsstring -> jsstring) : Prop :=
  forall a w b, forallb isLatin1 w = true ->
    exists a' b', lower (a ++ w ++ b) = a' ++ map latin1Lower w ++ b'.

(** The same at the end of a string: an ASCII ending is lowered in place. *)
Definition lowersAsciiEnding (lower : jsstring -> jsstring) : Prop :=
  forall a w, forallb isAscii w = true ->
    exists a', lower (a ++ w) = a' ++ map asciiLower w.

(** * Properties *)

Unset Implicit Arguments.

(** ** Strings *)

Lemma eqs_eq (a b : jsstring) : eqs a b = true <-> a = b.
Proof.
  revert b; induction a as [|x a IH]; intros [|y b]; simpl; split; try easy.
  - rewrite andb_true_iff, N.eqb_eq, IH. now intros [-> ->].
  - intros [= -> ->]. rewrite N.eqb_refl. now apply IH.
Qed.

Lemma startsWith_app (h r : jsstring) : startsWith (h ++ r) h = true.
Proof. induction h as [|x h IH]; simpl; [easy | now rewrite N.eqb_refl, IH]. Qed.

Lemma includes_prefix (s h : jsstring) :
  startsWith s h = true -> includes s h = true.
Proof. destruct s; simpl; intros ->; reflexivity. Qed.

Lemma includes_app (a h b : jsstring) : includes (a ++ h ++ b) h = true.
Proof.
  induction a as [|x a IH].
  - exact (includes_prefix _ _ (startsWith_app h b)).
  - simpl. rewrite IH. apply orb_true_r.
Qed.

Lemma startsWith_split (s h : jsstring) :
  startsWith s h = true -> exists b, s = h ++ b.
Proof.
  revert s; induction h as [|x h IH]; intros s; simpl.
  - now exists s.
  - destruct s as [|y s]; [easy|].
    rewrite andb_true_iff, N.eqb_eq. intros [-> H].
    destruct (IH _ H) as [b ->]. now exists b.
Qed.

Lemma includes_split (s h : jsstring) :
  includes s h = true -> exists a b, s = a ++ h ++ b.
Proof.
  induction s as [|x s IH]; simpl; rewrite orb_true_iff; intros [H|H].
  - destruct (startsWith_split _ _ H) as [b E]. now exists [], b.
  - easy.
  - destruct (startsWith_split _ _ H) as [b E]. now exists [], b.
  - destruct (IH H) as (a & b & ->). now exists (x :: a), b.
Qed.

Lemma dropWhile_split (p : N -> bool) (s : jsstring) :
  exists a, s = a ++ dropWhile p s /\ forallb p a = true.
Proof.
  induction s as [|c s (a & E & F)]; simpl.
  - now exists [].
  - destruct (p c) eqn:P.
    + exists (c :: a). simpl. now rewrite P, F, <- E.
    + now exists [].
Qed.

Lemma dropWhile_head (p : N -> bool) (s : jsstring) c r :
  dropWhile p s = c :: r -> p c = false.
Proof.
  induction s as [|x s IH]; simpl; [easy|].
  destruct (p x) eqn:P; [easy|]. now intros [= <- _].
Qed.

Lemma dropWhile_id (p : N -> bool) c r :
  p c = false -> dropWhile p (c :: r) = c :: r.
Proof. simpl. now intros ->. Qed.


(** [trim] cuts white space off both ends and nothing else. *)
Lemma trim_split (s : jsstring) :
  exists a b, s = a ++ trim s ++ b
              /\ forallb isWhiteSpace a = true /\ forallb isWhiteSpace b = true.
Proof.
  unfold trim, trimEnd, trimStart.
  destruct (dropWhile_split isWhiteSpace s) as (a & E & F).
  destruct (dropWhile_split isWhiteSpace (rev (dropWhile isWhiteSpace s))) as (b & E' & F').
  exists a, (rev b). split; [|split]; trivial.
  - rewrite <- rev_app_distr, <- E', rev_involutive. exact E.
  - rewrite forallb_forall in *. intros x Hx. apply F'. now apply in_rev.
Qed.

Lemma trim_trimmed (s : jsstring) : trimmed (trim s).
Proof.
  unfold trim, trimEnd, trimStart. split.
  - intros c r E.
    destruct (dropWhile_split isWhiteSpace (rev (dropWhile isWhiteSpace s))) as (b & E' & F').
    apply (f_equal (@rev N)) in E'. rewrite rev_involutive, rev_app_distr, E in E'.
    simpl in E'.
    apply dropWhile_head with (s := s) (r := r ++ rev b). now rewrite E'.
  - intros r c E. apply (f_equal (@rev N)) in E.
    rewrite rev_involutive, rev_app_distr in E. simpl in E.
    now apply dropWhile_head in E.
Qed.

Lemma trim_id (s : jsstring) : trimmed s -> trim s = s.
Proof.
  intros [Hh Hl]. unfold trim, trimEnd, trimStart.
  destruct s as [|c r]; [easy|].
  rewrite dropWhile_id by (now apply (Hh c r)).
  destruct (rev (c :: r)) as [|d q] eqn:E.
  - apply (f_equal (@rev N)) in E. now rewrite rev_involutive in E.
  - rewrite dropWhile_id.
    + now rewrite <- E, rev_involutive.
    + apply (Hl (rev q) d). apply (f_equal (@rev N)) in E.
      now rewrite rev_involutive in E.
Qed.

Lemma trim_In (s : jsstring) c : In c (trim s) -> In c s.
Proof.
  destruct (trim_split s) as (a & b & E & _). intros H.
  rewrite E. apply in_or_app. right. apply in_or_app. now left.
Qed.


(** ** Runs *)

Lemma runsBelow_mono p k cur cur' s :
  cur' <= cur -> runsBelow p k cur s = true -> runsBelow p k cur' s = true.
Proof.
  revert cur cur'. induction s as [|c s IH]; simpl; intros cur cur' L; [easy|].
  destruct (p c); [|easy].
  rewrite !andb_true_iff, !Nat.ltb_lt. intros [H1 H2]. split; [lia|].
  apply (IH (S cur)); [lia | exact H2].
Qed.

Lemma runsBelow_suffix p k cur a s :
  runsBelow p k cur (a ++ s) = true -> runsBelow p k 0 s = true.
Proof.
  revert cur. induction a as [|c a IH]; simpl; intros cur.
  - apply runsBelow_mono. lia.
  - destruct (p c); [|now apply IH].
    rewrite andb_true_iff. intros [_ H]. now apply IH in H.
Qed.

Lemma runsBelow_prefix p k cur s b :
  runsBelow p k cur (s ++ b) = true -> runsBelow p k cur s = true.
Proof.
  revert cur. induction s as [|c s IH]; simpl; intros cur; [easy|].
  destruct (p c); [|now apply IH].
  rewrite !andb_true_iff. intros [H1 H2]. split; [exact H1 | now apply IH].
Qed.

Lemma runsBelow_run p k cur run b :
  forallb p run = true -> run <> [] ->
  runsBelow p k cur (run ++ b) = true -> cur + length run < k.
Proof.
  revert cur. induction run as [|c run IH]; simpl; intros cur F Hne; [easy|].
  apply andb_true_iff in F as [Pc F]. rewrite Pc, andb_true_iff, Nat.ltb_lt.
  intros [H1 H2]. destruct run as [|d run]; simpl; [lia|].
  specialize (IH (S cur) F). simpl in IH. apply IH in H2; [lia | easy].
Qed.

(** A string whose runs stay below [k] has no [k] consecutive [p]. *)
Lemma runsBelow_no_run p k s a run b :
  runsBelow p k 0 s = true -> s = a ++ run ++ b ->
  forallb p run = true -> run <> [] -> length run < k.
Proof.
  intros H -> F Hne. apply runsBelow_suffix in H.
  apply (runsBelow_run p k 0 run b F Hne H).
Qed.

(** ** The three replacements *)

Lemma replaceCR_noCR (t : jsstring) : ~ In CR (replaceCR t).
Proof.
  unfold replaceCR. rewrite in_map_iff. intros (c & E & _).
  destruct (N.eqb_spec c CR); [discriminate | congruence].
Qed.

Lemma replaceCR_id (t : jsstring) : ~ In CR t -> replaceCR t = t.
Proof.
  unfold replaceCR. induction t as [|c t IH]; simpl; intros H; [easy|].
  destruct (N.eqb_spec c CR) as [->|_]; [tauto|].
  rewrite IH; [easy | tauto].
Qed.






Lemma collapseBlanks_In (b : bool) (t : jsstring) c :
  In c (collapseBlanks b t) -> c = SP \/ (In c t /\ isBlank c = false).
Proof.
  revert b. induction t as [|x t IH]; simpl; intros b; [easy|].
  destruct (isBlank x) eqn:B.
  - destruct b; simpl; intros H.
    + destruct (IH _ H) as [?|[? ?]]; auto.
    + destruct H as [H|H]; [now left|]. destruct (IH _ H) as [?|[? ?]]; auto.
  - simpl. intros [<-|H]; [auto|]. destruct (IH _ H) as [?|[? ?]]; auto.
Qed.


Lemma collapseBlanks_noTAB (b : bool) (t : jsstring) : ~ In TAB (collapseBlanks b t).
Proof.
  intros H. apply collapseBlanks_In in H as [H|[_ H]]; discriminate.
Qed.

Lemma collapseBlanks_spaces (b : bool) (t : jsstring) :
  runsBelow isSP 2 (if b then 1 else 0) (collapseBlanks b t) = true.
Proof.
  revert b. induction t as [|x t IH]; simpl; intros b; [easy|].
  destruct (isBlank x) eqn:B.
  - destruct b; [apply (IH true)|]. simpl. apply (IH true).
  - simpl. replace (isSP x) with false; [apply (IH false)|].
    unfold isBlank in B. apply orb_false_iff in B as [B _]. now rewrite <- B.
Qed.

Lemma collapseBlanks_id (b : bool) (t : jsstring) :
  ~ In TAB t -> runsBelow isSP 2 (if b then 1 else 0) t = true ->
  collapseBlanks b t = t.
Proof.
  revert b. induction t as [|x t IH]; simpl; intros b NT; [easy|].
  unfold isBlank, isSP. destruct (N.eqb_spec x SP) as [->|NS]; simpl.
  - destruct b; simpl; [easy|]. intros H. now rewrite (IH true); auto.
  - destruct (N.eqb_spec x TAB) as [->|_]; [tauto|].
    intros H. now rewrite (IH false); auto.
Qed.






Lemma flushNewlines_In k c : In c (flushNewlines k) -> c = LF /\ 0 < k.
Proof.
  unfold flushNewlines. destruct (3 <=? k) eqn:E.
  - apply Nat.leb_le in E. simpl. intros [<-|[<-|[]]]; split; (easy || lia).
  - destruct k; [easy|]. intros H. apply repeat_spec in H. split; [exact H | lia].
Qed.

Lemma squeezeNewlines_In k (t : jsstring) c :
  In c (squeezeNewlines k t) -> (c = LF /\ 0 < k) \/ In c t.
Proof.
  revert k. induction t as [|x t IH]; simpl; intros k.
  - intros H. left. now apply flushNewlines_In.
  - destruct (N.eqb_spec x LF) as [->|_].
    + intros H. destruct (IH _ H) as [[-> _]|?]; auto.
    + rewrite in_app_iff. simpl. intros [H|[<-|H]]; auto.
      * left. now apply flushNewlines_In.
      * destruct (IH _ H) as [[_ ?]|?]; [lia | auto].
Qed.


Lemma runsBelow_flush_SP k cur (rest : jsstring) :
  runsBelow isSP 2 cur (flushNewlines k ++ rest)
  = runsBelow isSP 2 (if k =? 0 then cur else 0) rest.
Proof. destruct k as [|[|[|k]]]; reflexivity. Qed.

Lemma squeezeNewlines_spaces (t : jsstring) k cur :
  runsBelow isSP 2 (if k =? 0 then cur else 0) t = true ->
  runsBelow isSP 2 cur (squeezeNewlines k t) = true.
Proof.
  revert k cur. induction t as [|x t IH]; simpl; intros k cur.
  - intros _. rewrite <- (app_nil_r (flushNewlines k)). now rewrite runsBelow_flush_SP.
  - unfold isSP at 1. destruct (N.eqb_spec x LF) as [->|NL].
    + simpl. intros H. now apply IH.
    + rewrite runsBelow_flush_SP. simpl. fold (isSP x).
      destruct (isSP x).
      * rewrite !andb_true_iff. intros [H1 H2]. split; [exact H1 | now apply IH].
      * intros H. now apply IH.
Qed.

Lemma runsBelow_flush_LF k (c : N) (rest : jsstring) :
  c <> LF ->
  runsBelow isLF 3 0 (flushNewlines k ++ c :: rest) = runsBelow isLF 3 0 rest.
Proof.
  intros Hc. assert (E : isLF c = false) by (now apply N.eqb_neq).
  destruct k as [|[|[|k]]]; simpl; now rewrite E.
Qed.

(** After the third replacement no three LF are left in a row. *)
Lemma squeezeNewlines_runs k (t : jsstring) :
  runsBelow isLF 3 0 (squeezeNewlines k t) = true.
Proof.
  revert k. induction t as [|x t IH]; simpl; intros k.
  - now destruct k as [|[|[|k]]].
  - destruct (N.eqb_spec x LF) as [->|NL]; [apply IH|].
    rewrite runsBelow_flush_LF by exact NL. apply IH.
Qed.

Lemma squeezeNewlines_id k (t : jsstring) :
  k < 3 -> runsBelow isLF 3 k t = true -> squeezeNewlines k t = repeat LF k ++ t.
Proof.
  revert k. induction t as [|x t IH]; simpl; intros k K.
  - intros _. unfold flushNewlines. rewrite app_nil_r.
    now replace (3 <=? k) with false by (symmetry; apply Nat.leb_gt; lia).
  - unfold isLF at 1. destruct (N.eqb_spec x LF) as [->|NL].
    + rewrite andb_true_iff, Nat.ltb_lt. intros [H1 H2].
      rewrite IH by (lia || exact H2).
      change (repeat LF (S k) ++ t) with ((LF :: repeat LF k) ++ t).
      now rewrite repeat_cons, <- app_assoc.
    + intros H. rewrite (IH 0) by (lia || exact H). simpl.
      unfold flushNewlines.
      now replace (3 <=? k) with false by (symmetry; apply Nat.leb_gt; lia).
Qed.






(** ** Text Normalizer *)

Lemma not_includes (s h : jsstring) :
  (forall a b, s <> a ++ h ++ b) -> includes s h = false.
Proof.
  intros H. destruct (includes s h) eqn:E; [|reflexivity].
  apply includes_split in E as (a & b & E). now apply H in E.
Qed.



Lemma runs_infix p k (s a m b : jsstring) :
  runsBelow p k 0 s = true -> s = a ++ m ++ b -> runsBelow p k 0 m = true.
Proof.
  intros H ->. apply runsBelow_suffix in H. now apply runsBelow_prefix in H.
Qed.

Lemma collapsed_spaces (t : jsstring) : runsBelow isSP 2 0 (collapsed t) = true.
Proof. apply squeezeNewlines_spaces. apply (collapseBlanks_spaces false). Qed.

Lemma collapsed_In (t : jsstring) c :
  In c (collapsed t) -> c = SP \/ (In c t /\ c <> CR /\ c <> TAB).
Proof.
  unfold collapsed. intros H.
  apply squeezeNewlines_In in H as [[_ H]|H]; [lia|].
  apply collapseBlanks_In in H as [H|[H B]]; [now left|]. right.
  assert (c <> CR) by (intros ->; now apply replaceCR_noCR in H).
  assert (c <> TAB) by (now intros ->).
  repeat split; trivial.
  unfold replaceCR in H. apply in_map_iff in H as (x & E & Hx).
  destruct (N.eqb_spec x CR); [|now subst].
  subst c. discriminate B.
Qed.

(** A string that already has the shape [normalizeText] produces is left
    as it is. *)
Lemma normalizeText_fixed (s : jsstring) :
  ~ In CR s -> ~ In TAB s ->
  runsBelow isSP 2 0 s = true -> runsBelow isLF 3 0 s = true -> trimmed s ->
  normalizeText s = s.
Proof.
  intros H1 H2 H3 H4 H5. unfold normalizeText, collapsed.
  rewrite replaceCR_id by exact H1.
  rewrite (collapseBlanks_id false) by assumption.
  rewrite squeezeNewlines_id by (lia || exact H4).
  now apply trim_id.
Qed.

Lemma normalizeText_noCR (t : jsstring) : ~ In CR (normalizeText t).
Proof.
  intros H. apply trim_In, collapsed_In in H as [H|(_ & H & _)]; [discriminate | easy].
Qed.

Lemma normalizeText_noTAB (t : jsstring) : ~ In TAB (normalizeText t).
Proof.
  intros H. apply trim_In, collapsed_In in H as [H|(_ & _ & H)]; [discriminate | easy].
Qed.

Lemma normalizeText_spaces (t : jsstring) : runsBelow isSP 2 0 (normalizeText t) = true.
Proof.
  destruct (trim_split (collapsed t)) as (a & b & E & _).
  apply (runs_infix _ _ _ _ _ _ (collapsed_spaces t) E).
Qed.

Lemma normalizeText_newlines (t : jsstring) : runsBelow isLF 3 0 (normalizeText t) = true.
Proof.
  destruct (trim_split (collapsed t)) as (a & b & E & _).
  apply (runs_infix _ _ _ _ _ _ (squeezeNewlines_runs 0 _) E).
Qed.




(** C10.  [normalizeText] is idempotent. *)
Theorem normalizeText_idempotent (t : jsstring) :
  normalizeText (normalizeText t) = normalizeText t.
Proof.
  apply normalizeText_fixed.
  - apply normalizeText_noCR.
  - apply normalizeText_noTAB.
  - apply normalizeText_spaces.
  - apply normalizeText_newlines.
  - apply trim_trimmed.
Qed.

Example normalizeText_ex1 :
  normalizeText (lit " a" ++ [CR; TAB; SP] ++ lit "b" ++ [LF; LF; LF; LF] ++ lit "c" ++ [LF])
  = lit "a b" ++ [LF; LF] ++ lit "c".
Proof. reflexivity. Qed.

Example splitBlank_ex1 :
  splitBlank [] (lit "a" ++ [LF; LF; LF] ++ lit "b") = [lit "a"; LF :: lit "b"].
Proof. reflexivity. Qed.

(** ** Junk Classifier *)

Lemma splitLines_line (cur l : jsstring) :
  ~ In LF l -> splitLines cur l = [rev cur ++ l].
Proof.
  revert cur. induction l as [|c l IH]; simpl; intros cur H.
  - now rewrite app_nil_r.
  - destruct (N.eqb_spec c LF) as [->|_]; [tauto|].
    rewrite IH by tauto. simpl. now rewrite <- app_assoc.
Qed.

Lemma splitLines_cut (cur l r : jsstring) :
  ~ In LF l -> splitLines cur (l ++ LF :: r) = (rev cur ++ l) :: splitLines [] r.
Proof.
  revert cur. induction l as [|c l IH]; simpl; intros cur H.
  - now rewrite app_nil_r.
  - destruct (N.eqb_spec c LF) as [->|_]; [tauto|].
    rewrite IH by tauto. simpl. now rewrite <- app_assoc.
Qed.

(** Splitting at the line feeds undoes joining lines with a line feed. *)
Lemma splitLines_join (l : jsstring) (lines : list jsstring) :
  Forall (fun x => ~ In LF x) (l :: lines) ->
  splitLines [] (join [LF] (l :: lines)) = l :: lines.
Proof.
  revert l. induction lines as [|m lines IH]; intros l H.
  - apply splitLines_line. now inversion H.
  - inversion H as [|? ? Hl Hr]; subst.
    change (join [LF] (l :: m :: lines)) with (l ++ LF :: join [LF] (m :: lines)).
    rewrite splitLines_cut by exact Hl. simpl rev. simpl app at 1.
    f_equal. now apply IH.
Qed.

Lemma filter_all {A} (p : A -> bool) (xs : list A) :
  Forall (fun x => p x = true) xs -> filter p xs = xs.
Proof.
  induction 1 as [|x xs Hx _ IH]; simpl; [easy|]. now rewrite Hx, IH.
Qed.

Lemma filter_none {A} (p : A -> bool) (xs : list A) :
  Forall (fun x => p x = false) xs -> filter p xs = [].
Proof.
  induction 1 as [|x xs Hx _ IH]; simpl; [easy|]. now rewrite Hx, IH.
Qed.

(** What the line-shape rule sees of a fragment made of non-empty lines. *)
Lemma lineShape_lines (lines : list jsstring) :
  lines <> [] ->
  Forall (fun l => l <> [] /\ ~ In LF l) lines ->
  lineShape (join [LF] lines)
  = (8 <=? length lines)
    && (3 * length lines <? 5 * length (filter (fun l => length (trim l) <? 30) lines)).
Proof.
  intros Hne H. destruct lines as [|l lines]; [easy|].
  unfold lineShape. rewrite splitLines_join.
  - rewrite filter_all; [reflexivity|].
    eapply Forall_impl; [|exact H]. intros [|? ?] [? _]; easy.
  - eapply Forall_impl; [|exact H]. now intros ? [_ ?].
Qed.

Section ClassifierFacts.
Context {host : Host}.

Lemma looksLikeJunk_lineShape (fragment : jsstring) :
  lineShape fragment = true -> looksLikeJunk fragment = true.
Proof.
  unfold looksLikeJunk. intros ->.
  now destruct (tooShort fragment), (hasJunkHint fragment), (digitHeavy fragment).
Qed.

Lemma looksLikeJunk_hint (fragment : jsstring) :
  hasJunkHint fragment = true -> looksLikeJunk fragment = true.
Proof. unfold looksLikeJunk. intros ->. now destruct (tooShort fragment). Qed.

(** What the line-shape rule sees of any fragment, given as the pieces
    between its line feeds. *)
Lemma lineShape_pieces (pieces : list jsstring) :
  Forall (fun l => ~ In LF l) pieces ->
  lineShape (join [LF] pieces)
  = (8 <=? length (filter nonEmpty pieces))
    && (3 * length (filter nonEmpty pieces)
        <? 5 * length (filter (fun l => length (trim l) <? 30) (filter nonEmpty pieces))).
Proof.
  intros H. destruct pieces as [|l pieces]; [reflexivity|].
  unfold lineShape. now rewrite splitLines_join.
Qed.

(** C6.  The line-shape rule as the code has it: of the pieces between the
    line feeds of a fragment the empty ones are dropped, and the rule rejects
    exactly when at least 8 are left and more than 60 percent of these have
    a trimmed length under 30.  So ten non-empty lines whose trimmed length is
    under 30 make a fragment that the rule rejects and the classifier calls
    junk, and ten lines whose trimmed length is 30 or more (40 or more, for
    one) make a fragment that the rule does not reject. *)
Theorem lineShape_ten_lines (pieces short long : list jsstring) :
  Forall (fun l => ~ In LF l) pieces ->
  length short = 10 -> length long = 10 ->
  Forall (fun l => l <> [] /\ ~ In LF l /\ length (trim l) < 30) short ->
  Forall (fun l => ~ In LF l /\ 30 <= length (trim l)) long ->
  (lineShape (join [LF] pieces) = true <->
     8 <= length (filter nonEmpty pieces)
     /\ 3 * length (filter nonEmpty pieces)
        < 5 * length (filter (fun l => length (trim l) <? 30) (filter nonEmpty pieces)))
  /\ lineShape (join [LF] short) = true
  /\ looksLikeJunk (join [LF] short) = true
  /\ lineShape (join [LF] long) = false.
Proof.
  intros Hp Ls Ll Hs Hl. split.
  { rewrite lineShape_pieces by exact Hp.
    now rewrite andb_true_iff, Nat.leb_le, Nat.ltb_lt. }
  assert (S1 : lineShape (join [LF] short) = true).
  { rewrite lineShape_lines.
    - rewrite filter_all, Ls; [reflexivity|].
      eapply Forall_impl; [|exact Hs]. intros l (_ & _ & H). now apply Nat.ltb_lt.
    - intros ->. discriminate Ls.
    - eapply Forall_impl; [|exact Hs]. now intros l (? & ? & _). }
  split; [exact S1|]. split; [now apply looksLikeJunk_lineShape|].
  rewrite lineShape_lines.
  - rewrite filter_none, Ll; [reflexivity|].
    eapply Forall_impl; [|exact Hl]. intros l (_ & H). apply Nat.ltb_ge. exact H.
  - intros ->. discriminate Ll.
  - eapply Forall_impl; [|exact Hl]. intros l (H1 & H2). split; [|exact H1].
    intros ->. simpl in H2. lia.
Qed.

(** Every case variant of an ASCII word is made of ASCII code units. *)
Lemma asciiLower_ascii (w : jsstring) :
  forallb isAscii (map asciiLower w) = true -> forallb isAscii w = true.
Proof.
  induction w as [|c w IH]; simpl; [easy|].
  rewrite !andb_true_iff. intros [H1 H2]. split; [|now apply IH].
  unfold isAscii, asciiLower in *.
  destruct ((65 <=? c) && (c <=? 90))%N eqn:E.
  - apply N.ltb_lt in H1. apply N.ltb_lt. lia.
  - exact H1.
Qed.

(** C7.  When [toLowerCase] lowers ASCII text in place, as case conversion
    does, a fragment of any length that contains "ISBN" in any letter case
    (a word [w] that lower-cases to "isbn") is junk. *)
Theorem looksLikeJunk_isbn (fragment a w b : jsstring) :
  lowersAscii toLowerCase ->
  fragment = a ++ w ++ b -> map asciiLower w = lit "isbn" ->
  looksLikeJunk fragment = true.
Proof.
  intros L -> E. apply looksLikeJunk_hint. unfold hasJunkHint.
  destruct (L a w b) as (a' & b' & ->).
  - apply asciiLower_ascii. now rewrite E.
  - rewrite E. change junkHints with (lit "isbn" :: tl junkHints).
    cbn [existsb]. now rewrite includes_app.
Qed.

(** ** Fragment Selector *)

Lemma sample_Some draw paras n attempt f :
  sample draw paras n attempt = Some f ->
  looksLikeJunk f = false /\ length f <= 1600.
Proof.
  revert attempt. induction n as [|n IH]; simpl; intros attempt; [easy|].
  destruct (looksLikeJunk (clip (window paras (draw attempt)))) eqn:J.
  - apply IH.
  - intros [= <-]. split; [exact J|]. apply firstn_le_length.
Qed.

(** The loop gives up exactly when each of its [n] attempts drew a window that
    is junk once clipped. *)
Lemma sample_None draw paras n attempt :
  sample draw paras n attempt = None
  <-> forall k, k < n -> looksLikeJunk (clip (window paras (draw (attempt + k)))) = true.
Proof.
  revert attempt. induction n as [|n IH]; simpl; intros attempt.
  - split; [intros _ k Hk; lia | easy].
  - destruct (looksLikeJunk (clip (window paras (draw attempt)))) eqn:J.
    + rewrite IH. split.
      * intros H [|k] Hk; [now rewrite Nat.add_0_r|].
        rewrite <- Nat.add_succ_comm. apply H. lia.
      * intros H k Hk. rewrite Nat.add_succ_comm. apply H. lia.
    + split; [easy|]. intros H. specialize (H 0). rewrite Nat.add_0_r, J in H.
      discriminate H. lia.
Qed.

Lemma window_out_of_range paras i : length paras <= i -> window paras i = [].
Proof.
  intros H. unfold window.
  now rewrite !(proj2 (nth_error_None _ _)) by lia.
Qed.

Lemma looksLikeJunk_empty : looksLikeJunk [] = true.
Proof. reflexivity. Qed.

(** C1.  A fragment returned by [pickFragment] is usable for the classifier
    and has at most 1600 code units. *)
Theorem pickFragment_usable draw fullText fragment :
  pickFragment draw fullText = Some fragment ->
  looksLikeJunk fragment = false /\ length fragment <= 1600.
Proof.
  unfold pickFragment.
  destruct (length (normalizeText fullText) <? 800); [easy|].
  destruct (length (paragraphs (normalizeText fullText)) <? 5); [easy|].
  apply sample_Some.
Qed.

(** C3.  A text whose normalized length is under 800 yields no fragment,
    however many paragraphs it has, and so does a text with fewer than five
    non-empty trimmed paragraphs. *)
Theorem pickFragment_too_small draw fullText :
  (length (normalizeText fullText) < 800 -> pickFragment draw fullText = None)
  /\ (length (paragraphs (normalizeText fullText)) < 5 ->
      pickFragment draw fullText = None).
Proof.
  unfold pickFragment. split; intros H.
  - now rewrite (proj2 (Nat.ltb_lt _ _) H).
  - rewrite (proj2 (Nat.ltb_lt _ _) H).
    now destruct (length (normalizeText fullText) <? 800).
Qed.

(** C4.  For a text of 800 or more normalized code units and five or more
    paragraphs in which every window, joined and clipped, is junk,
    [pickFragment] returns nothing whatever the indices drawn; and for such a
    size it returns nothing only when all twelve attempts drew junk. *)
Theorem pickFragment_all_junk fullText :
  800 <= length (normalizeText fullText) ->
  5 <= length (paragraphs (normalizeText fullText)) ->
  (forall i, i < length (paragraphs (normalizeText fullText)) ->
     looksLikeJunk (clip (window (paragraphs (normalizeText fullText)) i)) = true) ->
  forall draw,
    pickFragment draw fullText = None
    /\ (pickFragment draw fullText = None <->
        forall k, k < 12 ->
          looksLikeJunk (clip (window (paragraphs (normalizeText fullText)) (draw k))) = true).
Proof.
  intros H8 H5 HJ draw. unfold pickFragment.
  rewrite (proj2 (Nat.ltb_ge _ _) H8), (proj2 (Nat.ltb_ge _ _) H5).
  split; [|apply (sample_None draw _ 12 0)].
  apply sample_None. intros k _.
  destruct (Nat.lt_ge_cases (draw (0 + k)) (length (paragraphs (normalizeText fullText)))) as [L|L].
  - now apply HJ.
  - now rewrite window_out_of_range.
Qed.

End ClassifierFacts.

(** ** Closed instances on the Latin-1 host *)

Lemma latin1_lowersAscii : lowersAscii (@toLowerCase latin1Host).
Proof.
  intros a w b H. exists (map latin1Lower a), (map latin1Lower b).
  cbn [toLowerCase latin1Host]. rewrite !map_app. do 2 f_equal.
  induction w as [|c w IH]; [easy|]. simpl in H. apply andb_true_iff in H as [Hc H].
  simpl. rewrite IH by exact H. f_equal.
  unfold latin1Lower, asciiLower, isAscii in *. apply N.ltb_lt in Hc.
  replace ((192 <=? c)%N) with false by (symmetry; apply N.leb_gt; lia).
  now rewrite andb_false_l, orb_false_r.
Qed.

Lemma letters_noLF n : ~ In LF (letters n).
Proof. intros H. apply repeat_spec in H. discriminate H. Qed.

(** Witness for C1: five paragraphs of 200 letters, always drawing the first. *)
Lemma pickFragment_usable_witness :
  @looksLikeJunk latin1Host (document 3 (letters 200)) = false
  /\ length (document 3 (letters 200)) <= 1600.
Proof.
  apply (@pickFragment_usable latin1Host (fun _ => 0) (document 5 (letters 200))).
  vm_compute. reflexivity.
Defined.

(** Witness for C3: 799 code units in nine paragraphs, and 900 code units in
    four paragraphs. *)
Lemma pickFragment_too_small_witness :
  @pickFragment latin1Host (fun k => k) (document 9 (letters 87)) = None
  /\ @pickFragment latin1Host (fun k => k)
       (join [LF; LF] [letters 223; letters 223; letters 223; letters 225]) = None.
Proof.
  split.
  - apply (proj1 (@pickFragment_too_small latin1Host (fun k => k) (document 9 (letters 87)))).
    apply Nat.ltb_lt. vm_compute. reflexivity.
  - apply (proj2 (@pickFragment_too_small latin1Host (fun k => k)
                    (join [LF; LF] [letters 223; letters 223; letters 223; letters 225]))).
    apply Nat.ltb_lt. vm_compute. reflexivity.
Defined.

Example document_799 :
  length (normalizeText (document 9 (letters 87))) = 799
  /\ length (paragraphs (normalizeText (document 9 (letters 87)))) = 9.
Proof. split; vm_compute; reflexivity. Qed.

Example document_900 :
  length (normalizeText (join [LF; LF] [letters 223; letters 223; letters 223; letters 225])) = 900.
Proof. vm_compute. reflexivity. Qed.

(** Witness for C4: five paragraphs that all contain "copyright". *)
Lemma pickFragment_all_junk_witness :
  @pickFragment latin1Host (fun k => k) (document 5 (lit "copyright " ++ letters 200)) = None.
Proof.
  apply (proj1 (@pickFragment_all_junk latin1Host
                  (document 5 (lit "copyright " ++ letters 200))
                  ltac:(apply Nat.leb_le; vm_compute; reflexivity)
                  ltac:(apply Nat.leb_le; vm_compute; reflexivity)
                  ltac:(intros i Hi; apply Nat.ltb_lt in Hi;
                        do 5 (destruct i as [|i]; [vm_compute; reflexivity|]);
                        vm_compute in Hi; discriminate Hi)
                  (fun k => k))).
Defined.

(** Witness for C6: seven lines of 5 letters and three of 30 as the pieces
    (seven in ten are more than 60 percent), ten lines of 25 letters, and ten
    lines of 40 letters. *)
Lemma lineShape_ten_lines_witness :
  (lineShape (join [LF] (repeat (letters 5) 7 ++ repeat (letters 30) 3)) = true <->
     8 <= 10 /\ 3 * 10 < 5 * 7)
  /\ lineShape (join [LF] (repeat (letters 25) 10)) = true
  /\ @looksLikeJunk latin1Host (join [LF] (repeat (letters 25) 10)) = true
  /\ lineShape (join [LF] (repeat (letters 40) 10)) = false.
Proof.
  apply (@lineShape_ten_lines latin1Host (repeat (letters 5) 7 ++ repeat (letters 30) 3)
           (repeat (letters 25) 10) (repeat (letters 40) 10));
    try reflexivity.
  - apply Forall_app; split; apply Forall_forall; intros l Hl;
      apply repeat_spec in Hl; subst l; apply letters_noLF.
  - apply Forall_forall; intros l Hl; apply repeat_spec in Hl; subst l.
    split; [discriminate|]. split; [apply letters_noLF|].
    apply Nat.ltb_lt. vm_compute. reflexivity.
  - apply Forall_forall; intros l Hl; apply repeat_spec in Hl; subst l.
    split; [apply letters_noLF|]. apply Nat.leb_le. vm_compute. reflexivity.
Defined.

(** Counterexample to C6 as stated.  A line of 5 letters followed by 40
    spaces is 45 code units long and has the trimmed length 5: ten such
    lines, each of 40 or more characters, are rejected by the line-shape
    rule.  And seven such lines followed by three empty lines are ten lines
    of a trimmed length under 30 without a junk keyword, of which the rule
    counts seven: the fragment, 324 code units long, is not junk. *)
Lemma lineShape_padded_lines :
  let padded := letters 5 ++ repeat SP 40 in
  (length padded = 45 /\ length (trim padded) = 5
   /\ lineShape (join [LF] (repeat padded 10)) = true)
  /\ (length (join [LF] (repeat padded 7 ++ repeat [] 3)) = 324
      /\ Forall (fun l => length (trim l) < 30) (repeat padded 7 ++ repeat [] 3)
      /\ @hasJunkHint latin1Host (join [LF] (repeat padded 7 ++ repeat [] 3)) = false
      /\ @looksLikeJunk latin1Host (join [LF] (repeat padded 7 ++ repeat [] 3)) = false).
Proof.
  repeat split; try (vm_compute; reflexivity).
  apply Forall_forall. intros l Hl. apply Nat.ltb_lt. revert l Hl.
  apply Forall_forall. repeat constructor.
Qed.

(** Witness for C7: "IsBn" inside 305 letters. *)
Lemma looksLikeJunk_isbn_witness :
  @looksLikeJunk latin1Host (letters 300 ++ lit "IsBn" ++ letters 5) = true.
Proof.
  apply (@looksLikeJunk_isbn latin1Host _ (letters 300) (lit "IsBn") (letters 5)
           latin1_lowersAscii eq_refl eq_refl).
Defined.

(** ** Run Orchestrator *)

Section RunFacts.
Context {host : Host}.
Variable W : World.

Lemma countChat_app (tr tr' : list call) :
  countChat (tr ++ tr') = countChat tr + countChat tr'.
Proof. unfold countChat. now rewrite filter_app, length_app. Qed.

Lemma countNotify_app (tr tr' : list call) :
  countNotify (tr ++ tr') = countNotify tr + countNotify tr'.
Proof. unfold countNotify. now rewrite filter_app, length_app. Qed.

Lemma adds_weaken {A} b f n n' tr (out : result A * list call) :
  n <= n' -> adds b f n tr out -> adds b f n' tr out.
Proof.
  intros L (added & E & C & F & R). exists added. repeat split; trivial. lia.
Qed.

Lemma adds_ret {A} b f tr (a : A) : adds b f 0 tr (ret a tr).
Proof.
  exists []. simpl. rewrite app_nil_r. repeat split; trivial; constructor.
Qed.

Lemma adds_throw {A} b f tr e : adds (A := A) b f 0 tr (throw e tr).
Proof.
  exists []. simpl. rewrite app_nil_r. repeat split; trivial; try constructor.
  exists []. split; [constructor | now left].
Qed.

Lemma adds_perform {A} b f tr ev (answer : result A) :
  (match ev with EvChat _ _ => false | _ => true end) = true ->
  adds b f 0 tr (perform ev answer tr).
Proof.
  intros NC. exists [(ev, failure answer)]. simpl. split; [easy|].
  assert (NI : isChat (ev, failure answer) = false) by (now destruct ev).
  split; [unfold countChat; simpl; now rewrite NI|].
  split; [constructor; [now rewrite NI | constructor]|].
  destruct answer as [a|e]; simpl.
  - now repeat constructor.
  - exists []. split; [constructor|]. right. now exists ev.
Qed.

Lemma adds_chat {A} b f tr (answer : result A) :
  adds b f 1 tr (perform (EvChat b f) answer tr).
Proof.
  exists [(EvChat b f, failure answer)]. simpl. split; [easy|].
  split; [unfold countChat; simpl; lia|].
  split; [now repeat constructor|].
  destruct answer as [a|e]; simpl.
  - now repeat constructor.
  - exists []. split; [constructor|]. right. now exists (EvChat b f).
Qed.

Lemma clean_app (x y : list call) : clean x -> clean y -> clean (x ++ y).
Proof. intros. now apply Forall_app. Qed.

Lemma adds_bind {A B} b f n1 n2 tr (m : M A) (k : A -> M B) :
  adds b f n1 tr (m tr) ->
  (forall a tr', m tr = (Ok a, tr') -> adds b f n2 tr' (k a tr')) ->
  adds b f (n1 + n2) tr (bind m k tr).
Proof.
  intros (a1 & E1 & C1 & F1 & R1) K. unfold bind.
  destruct (m tr) as [[a|e] tr1] eqn:Em; simpl in *.
  - destruct (K a tr1 eq_refl) as (a2 & E2 & C2 & F2 & R2).
    exists (a1 ++ a2). rewrite E2, E1, app_assoc. split; [easy|].
    split; [rewrite countChat_app; lia|].
    split; [now apply Forall_app|].
    rewrite <- E1. destruct (fst (k a tr1)) as [r|e].
    + now apply clean_app.
    + destruct R2 as (pre & Cp & [->|[ev ->]]).
      * exists (a1 ++ pre). split; [now apply clean_app | now left].
      * exists (a1 ++ pre). split; [now apply clean_app|]. right. exists ev.
        now rewrite app_assoc.
  - exists a1. repeat split; trivial. lia.
Qed.

Lemma adds_notify b f tr title body : adds b f 0 tr (notify W title body tr).
Proof. unfold notify. now apply adds_perform. Qed.

Lemma adds_queryLoop b f n tr : adds b f n tr (queryLoop W n b f tr).
Proof.
  revert tr. induction n as [|n IH]; intros tr; [apply adds_ret|].
  cbn [queryLoop]. apply (adds_bind b f 1 n).
  - unfold askGroqForQuote. rewrite <- (Nat.add_0_r 1). apply adds_bind.
    + apply adds_chat.
    + intros. apply adds_ret.
  - intros out tr' _. destruct (eqs out SKIP); [apply IH|].
    destruct (negb _); [apply IH|].
    apply (adds_weaken b f 0); [lia|].
    change 0 with (0 + (0 + 0)). apply adds_bind.
    + unfold saveQuoteToDailyMd. now apply adds_perform.
    + intros. apply adds_bind; [apply adds_notify | intros; apply adds_ret].
Qed.

Lemma adds_listPdfs b f tr dir : adds b f 0 tr (listPdfs W dir tr).
Proof.
  unfold listPdfs. change 0 with (0 + 0).
  apply adds_bind; [now apply adds_perform | intros; apply adds_ret].
Qed.

Lemma adds_extractPdfText b f tr filePath : adds b f 0 tr (extractPdfText W filePath tr).
Proof.
  unfold extractPdfText. change 0 with (0 + 0).
  apply adds_bind; [now apply adds_perform | intros; apply adds_ret].
Qed.

(** Sequencing when the book and the fragment are only known later. *)
Lemma adds_bind_later {A B} n tr (m : M A) (k : A -> M B) :
  (forall b f, adds b f 0 tr (m tr)) ->
  (forall a tr', m tr = (Ok a, tr') -> exists b f, adds b f n tr' (k a tr')) ->
  exists b f, adds b f n tr (bind m k tr).
Proof.
  intros Hm Hk. destruct (m tr) as [[a|e] tr'] eqn:Em.
  - destruct (Hk a tr' eq_refl) as (b & f & H). exists b, f.
    change n with (0 + n). apply adds_bind; [rewrite Em; apply Hm|].
    intros a' tr''. rewrite Em. now intros [= <- <-].
  - exists [], []. change n with (0 + n). apply adds_bind; [rewrite Em; apply Hm|].
    intros a' tr''. rewrite Em. discriminate.
Qed.

(** The guarded block makes at most six calls to the model, all with the same
    book and fragment, and stops at the first call that throws. *)
Lemma adds_runBody tr : exists b f, adds b f 6 tr (runBody W tr).
Proof.
  unfold runBody. apply adds_bind_later; [intros; apply adds_listPdfs|].
  intros [|p ps] tr1 _.
  { exists [], []. apply (adds_weaken _ _ 0); [lia | apply adds_notify]. }
  destruct (randomPick W 0 (p :: ps)) as [chosen|].
  2:{ exists [], []. apply (adds_weaken _ _ 0); [lia | apply adds_throw]. }
  apply adds_bind_later; [intros; apply adds_extractPdfText|].
  intros fullText tr2 _.
  destruct (pickFragment _ fullText) as [fragment|].
  - exists (path_basename chosen), fragment. destruct (negb (nonEmpty fragment)).
    + apply (adds_weaken _ _ 0); [lia | apply adds_notify].
    + rewrite <- (Nat.add_0_r 6). apply adds_bind; [apply adds_queryLoop|].
      intros [|] ? _; [apply adds_ret | apply adds_notify].
  - exists [], []. apply (adds_weaken _ _ 0); [lia | apply adds_notify].
Qed.

(** *** The loop *)

Lemma queryLoop_soft n b f tr content :
  groq_chat W (countChat tr) b f = Ok content ->
  softFailure (responseText content) = true ->
  queryLoop W (S n) b f tr = queryLoop W n b f (tr ++ [done (EvChat b f)]).
Proof.
  intros E Hs. cbn [queryLoop]. unfold bind at 1, askGroqForQuote, bind, perform, ret.
  rewrite E. cbn [failure]. unfold softFailure in Hs.
  destruct (eqs (responseText content) SKIP); [reflexivity|].
  simpl in Hs. now rewrite Hs.
Qed.

Lemma queryLoop_quote n b f tr content :
  groq_chat W (countChat tr) b f = Ok content ->
  softFailure (responseText content) = false ->
  queryLoop W (S n) b f tr
  = keepQuote W b (safeJsonParse (responseText content)) (tr ++ [done (EvChat b f)]).
Proof.
  intros E Hs. cbn [queryLoop]. unfold bind at 1, askGroqForQuote, bind, perform, ret.
  rewrite E. cbn [failure]. unfold softFailure in Hs.
  apply orb_false_iff in Hs as [S1 S2]. now rewrite S1, S2.
Qed.

Lemma queryLoop_throw n b f tr e :
  groq_chat W (countChat tr) b f = Throw e ->
  queryLoop W (S n) b f tr = (Throw e, tr ++ [(EvChat b f, Some e)]).
Proof.
  intros E. cbn [queryLoop]. unfold bind at 1, askGroqForQuote, bind, perform, ret.
  now rewrite E.
Qed.

Lemma countChat_asked tr b f k :
  countChat (tr ++ repeat (done (EvChat b f)) k) = countChat tr + k.
Proof.
  rewrite countChat_app. f_equal. induction k as [|k IH]; [easy|].
  unfold countChat in *. simpl. now rewrite IH.
Qed.

(** [k] soft failures in a row use up [k] iterations and add [k] calls. *)
Lemma queryLoop_softs k n b f tr :
  (forall i, i < k -> exists c, groq_chat W (countChat tr + i) b f = Ok c
                                /\ softFailure (responseText c) = true) ->
  queryLoop W (k + n) b f tr = queryLoop W n b f (tr ++ repeat (done (EvChat b f)) k).
Proof.
  revert tr. induction k as [|k IH]; intros tr H.
  - simpl. now rewrite app_nil_r.
  - destruct (H 0 ltac:(lia)) as (c & E & Hs). rewrite Nat.add_0_r in E.
    cbn [Nat.add]. rewrite (queryLoop_soft _ _ _ _ c E Hs).
    rewrite IH.
    + cbn [repeat]. now rewrite <- app_assoc.
    + intros i Hi. destruct (H (S i) ltac:(lia)) as (c' & E' & S').
      exists c'. split; [|exact S'].
      rewrite countChat_app. unfold countChat at 2. simpl.
      now rewrite <- Nat.add_assoc.
Qed.

(** *** The run around the loop *)

Lemma runBody_reaches chosen b f :
  reachesLoop W chosen b f ->
  runBody W []
  = bind (queryLoop W 6 b f)
         (fun returned => if returned then ret tt
                          else notify W titleOraculo (FrontMatter b))
         (callsBeforeLoop W chosen).
Proof.
  intros (items & text & Er & Ec & -> & Et & Ef & Ne).
  unfold runBody, listPdfs. unfold bind at 1. unfold bind at 1. unfold perform at 1.
  rewrite Er. unfold ret at 1. cbn [app failure].
  destruct (map _ (filter isPdf items)) as [|p ps] eqn:Ep;
    [unfold randomPick in Ec; destruct (math_random W 0); discriminate Ec|].
  rewrite Ec. unfold bind at 1, extractPdfText. unfold bind at 1. unfold perform at 1.
  rewrite Et. unfold ret at 1. cbn [app failure]. rewrite Ef, Ne. reflexivity.
Qed.

Lemma filter_isChat_asked b f k :
  map fst (filter isChat (repeat (done (EvChat b f)) k)) = repeat (EvChat b f) k.
Proof. induction k as [|k IH]; simpl; [easy | now rewrite IH]. Qed.

(** Calls to the model that all carry [b] and [f] are that call repeated. *)
Lemma chats_repeat b f (added : list call) :
  Forall (fun c => isChat c = true -> fst c = EvChat b f) added ->
  map fst (filter isChat added) = repeat (EvChat b f) (countChat added).
Proof.
  unfold countChat. induction 1 as [|c added Hc _ IH]; simpl; [easy|].
  destruct (isChat c) eqn:E; simpl; [|exact IH]. now rewrite IH, Hc.
Qed.

Lemma runOnce_trace tr :
  runOnce W tr
  = match runBody W tr with
    | (Ok a, tr') => (Ok a, tr')
    | (Throw e, tr') =>
        (notifier_notify W (countNotify tr') titleError (ErrorText (errorText e)),
         tr' ++ [(EvNotify titleError (ErrorText (errorText e)),
                  failure (notifier_notify W (countNotify tr') titleError
                                           (ErrorText (errorText e))))])
    end.
Proof.
  unfold runOnce, tryCatch. now destruct (runBody W tr) as [[a|e] tr'].
Qed.

(** A run calls the model at most six times, with one book and one fragment. *)
Lemma runOnce_chats :
  exists b f m, m <= 6 /\ map fst (filter isChat (snd (runOnce W []))) = repeat (EvChat b f) m.
Proof.
  destruct (adds_runBody []) as (b & f & added & E & C & F & _).
  exists b, f, (countChat added). split; [exact C|].
  rewrite runOnce_trace. destruct (runBody W []) as [[a|e] tr']; simpl in *; subst tr'.
  - now apply chats_repeat.
  - rewrite filter_app, map_app. simpl. rewrite app_nil_r. now apply chats_repeat.
Qed.

(** *** Failures *)

(** In calls that start with calls that did not throw, the first call that
    threw lies beyond them. *)
Lemma first_failure (pre0 l pre post : list call) ev e :
  clean pre0 -> pre0 ++ l = pre ++ (ev, Some e) :: post ->
  exists mid, pre = pre0 ++ mid /\ l = mid ++ (ev, Some e) :: post.
Proof.
  revert pre. induction pre0 as [|c pre0 IH]; intros pre C E.
  - now exists pre.
  - inversion C as [|? ? Hc C']; subst. destruct pre as [|d pre]; simpl in E.
    + injection E as -> _. discriminate Hc.
    + injection E as <- E. destruct (IH pre C' E) as (mid & -> & ->). now exists mid.
Qed.

Lemma clean_no_failure (tr pre post : list call) ev e :
  clean tr -> tr <> pre ++ (ev, Some e) :: post.
Proof.
  intros C ->. apply Forall_app in C as [_ C]. inversion C as [|? ? H _]. discriminate H.
Qed.

(** What a run makes of the failures of its guarded block. *)
Lemma runOnce_failures :
  (forall pre ev e c post,
      snd (runOnce W []) = pre ++ (ev, Some e) :: c :: post ->
      clean pre /\ post = [] /\ fst c = EvNotify titleError (ErrorText (errorText e)))
  /\ (forall pre ev e,
        snd (runOnce W []) = pre ++ [(ev, Some e)] ->
        fst (runOnce W []) = Throw e /\ exists t, ev = EvNotify titleError (ErrorText t))
  /\ (forall e', fst (runOnce W []) = Throw e' ->
        exists pre t, snd (runOnce W []) = pre ++ [(EvNotify titleError (ErrorText t), Some e')]
                      /\ notifier_notify W (countNotify pre) titleError (ErrorText t) = Throw e').
Proof.
  destruct (adds_runBody []) as (b & f & added & E & _ & _ & R).
  rewrite runOnce_trace. destruct (runBody W []) as [[[]|e0] tr']; simpl in *; subst tr'.
  - split; [|split; [|discriminate]].
    + intros pre ev e c post H. now apply clean_no_failure in H.
    + intros pre ev e H. now apply clean_no_failure in H.
  - set (t := ErrorText (errorText e0)). set (ans := notifier_notify W (countNotify added) titleError t).
    destruct R as (pre0 & C0 & R). split; [|split].
    2:{ intros pre ev e H. apply app_inj_tail in H as [_ H]. injection H as <- H.
        split; [|now exists (errorText e0)].
        clearbody ans. destruct ans as [u|e1]; simpl in H; [discriminate H|].
        now injection H as ->. }
    + intros pre ev e c post H. destruct R as [->|[ev0 ->]].
      * apply first_failure in H as (mid & -> & H); [|exact C0].
        destruct mid as [|? [|? ?]]; discriminate H.
      * rewrite <- app_assoc in H. apply first_failure in H as (mid & -> & H); [|exact C0].
        destruct mid as [|x [|y mid]]; simpl in H.
        -- injection H as -> -> <- <-. rewrite app_nil_r. now repeat split.
        -- discriminate H.
        -- injection H as _ _ H. now destruct mid.
    + intros e' H. exists added, (errorText e0). fold t. fold ans. rewrite H. now split.
Qed.

(** *** Outcomes of the loop within a run *)

Lemma countNotify_chats b f k : countNotify (repeat (done (EvChat b f)) k) = 0.
Proof. induction k as [|k IH]; [easy|]. unfold countNotify in *. simpl. exact IH. Qed.

Lemma softFailure_cases out :
  out = SKIP \/ JSON_parse out = None \/ getProp (safeJsonParse out) cita = VUndefined ->
  softFailure out = true.
Proof.
  unfold softFailure. intros [->|[E|E]].
  - reflexivity.
  - unfold safeJsonParse. rewrite E. apply orb_true_r.
  - rewrite E. apply orb_true_r.
Qed.

Lemma softFailure_valid out :
  out <> SKIP -> truthy (getProp (safeJsonParse out) cita) = true -> softFailure out = false.
Proof.
  unfold softFailure. intros Hs ->. rewrite orb_false_r.
  destruct (eqs out SKIP) eqn:E; [|reflexivity]. now apply eqs_eq in E.
Qed.

Section Reached.
Variables chosen b f : jsstring.
Hypothesis reached : reachesLoop W chosen b f.

Lemma runOnce_chats_reached :
  exists m, m <= 6 /\ map fst (filter isChat (snd (runOnce W []))) = repeat (EvChat b f) m.
Proof.
  assert (H : adds b f 6 (callsBeforeLoop W chosen) (runBody W [])).
  { rewrite (runBody_reaches _ _ _ reached). rewrite <- (Nat.add_0_r 6).
    apply adds_bind; [apply adds_queryLoop|].
    intros [|] ? _; [apply adds_ret | apply adds_notify]. }
  destruct H as (added & E & C & F & _). exists (countChat added). split; [exact C|].
  rewrite runOnce_trace. destruct (runBody W []) as [[a|e] tr']; simpl in E; subst tr'.
  - cbn. now apply chats_repeat.
  - cbn [snd]. rewrite filter_app, map_app. cbn. rewrite app_nil_r. now apply chats_repeat.
Qed.

Lemma runOnce_quote k content path :
  k < 6 ->
  (forall i, i < k -> exists c, groq_chat W i b f = Ok c
                                /\ softFailure (responseText c) = true) ->
  groq_chat W k b f = Ok content ->
  softFailure (responseText content) = false ->
  fs_appendLog W (getProp (safeJsonParse (responseText content)) cita)
                 (getProp (safeJsonParse (responseText content)) reflexion) b = Ok path ->
  notifier_notify W 0 titleBooks
    (Quote (getProp (safeJsonParse (responseText content)) cita)
           (getProp (safeJsonParse (responseText content)) reflexion) b path) = Ok tt ->
  runOnce W []
  = (Ok tt,
     callsBeforeLoop W chosen ++ repeat (done (EvChat b f)) (S k)
     ++ [done (EvAppend (getProp (safeJsonParse (responseText content)) cita)
                        (getProp (safeJsonParse (responseText content)) reflexion) b);
         done (EvNotify titleBooks
                 (Quote (getProp (safeJsonParse (responseText content)) cita)
                        (getProp (safeJsonParse (responseText content)) reflexion) b path))]).
Proof.
  intros K Soft E V Ea En.
  rewrite runOnce_trace, (runBody_reaches _ _ _ reached).
  unfold bind at 1. replace 6 with (k + S (5 - k)) by lia.
  rewrite queryLoop_softs by (intros i Hi; apply (Soft i Hi)).
  rewrite (queryLoop_quote _ _ _ _ content).
  - unfold keepQuote, bind, saveQuoteToDailyMd, notify, perform, ret.
    rewrite Ea. rewrite !countNotify_app, countNotify_chats.
    match goal with |- context [notifier_notify W ?n _ _] => change n with 0 end.
    rewrite En. cbn [failure]. f_equal.
    rewrite <- !app_assoc. f_equal. change (S k) with (1 + k).
    rewrite Nat.add_comm, repeat_app, <- app_assoc. reflexivity.
  - rewrite countChat_asked. exact E.
  - exact V.
Qed.

Lemma runOnce_exhausted :
  (forall i, i < 6 -> exists c, groq_chat W i b f = Ok c
                                /\ softFailure (responseText c) = true) ->
  notifier_notify W 0 titleOraculo (FrontMatter b) = Ok tt ->
  runOnce W []
  = (Ok tt, callsBeforeLoop W chosen ++ repeat (done (EvChat b f)) 6
            ++ [done (EvNotify titleOraculo (FrontMatter b))]).
Proof.
  intros Soft En.
  rewrite runOnce_trace, (runBody_reaches _ _ _ reached).
  unfold bind at 1. change 6 with (6 + 0) at 1.
  rewrite queryLoop_softs by (intros i Hi; apply (Soft i Hi)).
  cbn [queryLoop]. unfold ret, notify, perform.
  rewrite countNotify_app, countNotify_chats.
  match goal with |- context [notifier_notify W ?n _ _] => change n with 0 end.
  rewrite En. cbn [failure]. now rewrite <- app_assoc.
Qed.

End Reached.

(** C2.  In a run that reaches the loop with the book [b] and the fragment
    [f]: the model is called at most six times, each time with [b] and [f];
    the answer SKIP, an answer that does not parse and an answer without a
    quote are soft failures; after [k < 6] soft failures an answer with a
    quote ends the run with [k + 1] calls to the model, one append to the log
    and the success notification, and nothing else; six soft failures end the
    run with six calls to the model, no append, and the plain notification
    (not the error one), and the run returns normally. *)
Theorem runOnce_query_loop chosen b f :
  reachesLoop W chosen b f ->
  (exists m, m <= 6
             /\ map fst (filter isChat (snd (runOnce W []))) = repeat (EvChat b f) m)
  /\ (forall out,
        out = SKIP \/ JSON_parse out = None
        \/ getProp (safeJsonParse out) cita = VUndefined ->
        softFailure out = true)
  /\ (forall k content path,
        k < 6 ->
        (forall i, i < k -> exists c, groq_chat W i b f = Ok c
                                      /\ softFailure (responseText c) = true) ->
        groq_chat W k b f = Ok content ->
        responseText content <> SKIP ->
        truthy (getProp (safeJsonParse (responseText content)) cita) = true ->
        fs_appendLog W (getProp (safeJsonParse (responseText content)) cita)
                       (getProp (safeJsonParse (responseText content)) reflexion) b
        = Ok path ->
        notifier_notify W 0 titleBooks
          (Quote (getProp (safeJsonParse (responseText content)) cita)
                 (getProp (safeJsonParse (responseText content)) reflexion) b path)
        = Ok tt ->
        runOnce W []
        = (Ok tt,
           callsBeforeLoop W chosen
           ++ repeat (done (EvChat b f)) (S k)
           ++ [done (EvAppend (getProp (safeJsonParse (responseText content)) cita)
                              (getProp (safeJsonParse (responseText content)) reflexion) b);
               done (EvNotify titleBooks
                       (Quote (getProp (safeJsonParse (responseText content)) cita)
                              (getProp (safeJsonParse (responseText content)) reflexion)
                              b path))]))
  /\ ((forall i, i < 6 -> exists c, groq_chat W i b f = Ok c
                                    /\ softFailure (responseText c) = true) ->
      notifier_notify W 0 titleOraculo (FrontMatter b) = Ok tt ->
      runOnce W []
      = (Ok tt,
         callsBeforeLoop W chosen
         ++ repeat (done (EvChat b f)) 6
         ++ [done (EvNotify titleOraculo (FrontMatter b))])).
Proof.
  intros R. split; [now apply (runOnce_chats_reached chosen)|].
  split; [apply softFailure_cases|]. split.
  - intros k content path K Soft E NS T Ea En.
    apply (runOnce_quote chosen b f R k content path); trivial.
    now apply softFailure_valid.
  - now apply runOnce_exhausted.
Qed.

(** C9.  An answer that parses to an object whose [cita] is falsy (the empty
    string and [null] are) passes for a failed attempt: the iteration is used
    up and the loop goes on with nothing but the call to the model recorded;
    six such answers in a run that reaches the loop end it with the plain
    notification and no append. *)
Theorem queryLoop_falsy_cita b f :
  truthy (VString []) = false /\ truthy VNull = false
  /\ (forall n tr content props,
        groq_chat W (countChat tr) b f = Ok content ->
        JSON_parse (responseText content) = Some (VObject props) ->
        truthy (lookup cita props) = false ->
        queryLoop W (S n) b f tr = queryLoop W n b f (tr ++ [done (EvChat b f)]))
  /\ (forall chosen,
        reachesLoop W chosen b f ->
        (forall i, i < 6 -> exists c props,
            groq_chat W i b f = Ok c
            /\ JSON_parse (responseText c) = Some (VObject props)
            /\ truthy (lookup cita props) = false) ->
        notifier_notify W 0 titleOraculo (FrontMatter b) = Ok tt ->
        runOnce W []
        = (Ok tt,
           callsBeforeLoop W chosen
           ++ repeat (done (EvChat b f)) 6
           ++ [done (EvNotify titleOraculo (FrontMatter b))])).
Proof.
  assert (F : forall out props,
             JSON_parse out = Some (VObject props) ->
             truthy (lookup cita props) = false -> softFailure out = true).
  { intros out props E T. unfold softFailure, safeJsonParse. rewrite E. cbn [getProp].
    rewrite T. apply orb_true_r. }
  split; [reflexivity|]. split; [reflexivity|]. split.
  - intros n tr content props E P T. apply (queryLoop_soft n b f tr content E).
    now apply (F _ props).
  - intros chosen R H En. apply (runOnce_exhausted chosen b f R); [|exact En].
    intros i Hi. destruct (H i Hi) as (c & props & E & P & T).
    exists c. split; [exact E | now apply (F _ props)].
Qed.

(** C8 (as amended).  In every run: whatever the guarded block throws, the
    run's next and last call is the error notification with the text of what
    was thrown; a call that throws inside the guarded block is the last call
    of the block, nothing threw before it, and it is followed by that
    notification and nothing else; the only call that can throw last is the
    error notification, and the run throws exactly then; so when error
    notifications do not throw, the run returns normally. *)
Theorem runOnce_contains_failures :
  (forall e tr,
      runBody W [] = (Throw e, tr) ->
      exists answer,
        runOnce W []
        = (answer, tr ++ [(EvNotify titleError (ErrorText (errorText e)), failure answer)]))
  /\ (forall pre ev e c post,
        snd (runOnce W []) = pre ++ (ev, Some e) :: c :: post ->
        clean pre /\ post = [] /\ fst c = EvNotify titleError (ErrorText (errorText e)))
  /\ (forall pre ev e,
        snd (runOnce W []) = pre ++ [(ev, Some e)] ->
        fst (runOnce W []) = Throw e /\ exists t, ev = EvNotify titleError (ErrorText t))
  /\ (forall e', fst (runOnce W []) = Throw e' ->
        exists pre t,
          snd (runOnce W []) = pre ++ [(EvNotify titleError (ErrorText t), Some e')]
          /\ notifier_notify W (countNotify pre) titleError (ErrorText t) = Throw e')
  /\ ((forall k t, notifier_notify W k titleError (ErrorText t) = Ok tt) ->
      fst (runOnce W []) = Ok tt).
Proof.
  destruct runOnce_failures as (A & L & B).
  split; [|split; [exact A|split; [exact L|split; [exact B|]]]].
  - intros e tr E. rewrite runOnce_trace, E. eexists. reflexivity.
  - intros N. destruct (fst (runOnce W [])) as [[]|e'] eqn:E; [reflexivity|].
    destruct (B e' eq_refl) as (pre & t & _ & H). rewrite N in H. discriminate H.
Qed.

End RunFacts.

(** ** Closed runs on the Latin-1 host *)

Lemma sampleWorld_reaches answers notifier :
  @reachesLoop latin1Host (sampleWorld answers notifier) samplePath sampleBook sampleFragment.
Proof.
  eexists _, _. split; [reflexivity|].
  split; [vm_compute; reflexivity|]. split; [vm_compute; reflexivity|].
  split; [reflexivity|]. split; [vm_compute; reflexivity | reflexivity].
Qed.

(** Witness for C2: SKIP, then text that is not JSON, then a quote. *)
Lemma runOnce_query_loop_witness :
  @runOnce latin1Host (sampleWorld answersQuoteThird notifierUp) []
  = (Ok tt,
     callsBeforeLoop (sampleWorld answersQuoteThird notifierUp) samplePath
     ++ repeat (done (EvChat sampleBook sampleFragment)) 3
     ++ [done (EvAppend (VString (lit "X")) (VString (lit "Y")) sampleBook);
         done (EvNotify titleBooks
                 (Quote (VString (lit "X")) (VString (lit "Y")) sampleBook
                        (lit "/logs/2026-01-01.md")))]).
Proof.
  refine (proj1 (proj2 (proj2 (@runOnce_query_loop latin1Host
            (sampleWorld answersQuoteThird notifierUp) samplePath sampleBook sampleFragment
            (sampleWorld_reaches _ _))))
          2 (Some (responseWithCita (quoted (lit "X")))) (lit "/logs/2026-01-01.md")
          _ _ eq_refl _ eq_refl eq_refl eq_refl).
  - lia.
  - intros [|[|i]] Hi; [eexists; split; reflexivity | eexists; split; reflexivity | lia].
  - vm_compute. discriminate.
Defined.

(** Witness for C9: the first of six answers with an empty quote. *)
Lemma queryLoop_falsy_cita_witness :
  @queryLoop latin1Host (sampleWorld answersEmptyQuote notifierUp) 6 sampleBook sampleFragment []
  = @queryLoop latin1Host (sampleWorld answersEmptyQuote notifierUp) 5 sampleBook sampleFragment
      [done (EvChat sampleBook sampleFragment)].
Proof.
  refine (proj1 (proj2 (proj2 (@queryLoop_falsy_cita latin1Host
            (sampleWorld answersEmptyQuote notifierUp) sampleBook sampleFragment)))
          5 [] (Some (responseWithCita (quoted [])))
          [(cita, VString []); (reflexion, VString (lit "Y"))] eq_refl eq_refl eq_refl).
Defined.

(** Witness for C8: the model cannot be reached, the notifier works. *)
Lemma runOnce_contains_failures_witness :
  fst (@runOnce latin1Host (sampleWorld answersNetworkDown notifierUp) []) = Ok tt.
Proof.
  apply (proj2 (proj2 (proj2 (proj2 (@runOnce_contains_failures latin1Host
                         (sampleWorld answersNetworkDown notifierUp)))))).
  intros k t. reflexivity.
Defined.

(** Counterexample to C8 as stated: the notifier throws on the success
    notification and again on the error notification of the handler, and
    the run throws. *)
Lemma runOnce_notifier_down :
  fst (@runOnce latin1Host (sampleWorld answersQuoteThird notifierDown) [])
  = Throw (errorWith (lit "no display")).
Proof. vm_compute. reflexivity. Qed.

Example runOnce_network_down :
  @runOnce latin1Host (sampleWorld answersNetworkDown notifierUp) []
  = (Ok tt,
     [done (EvReaddir (lit "/books")); done (EvExtract samplePath);
      (EvChat sampleBook sampleFragment, Some (errorWith (lit "network")));
      done (EvNotify titleError (ErrorText (lit "network")))]).
Proof. vm_compute. reflexivity. Qed.

Example runOnce_notifier_down_trace :
  map fst (snd (@runOnce latin1Host (sampleWorld answersQuoteThird notifierDown) []))
  = [EvReaddir (lit "/books"); EvExtract samplePath;
     EvChat sampleBook sampleFragment; EvChat sampleBook sampleFragment;
     EvChat sampleBook sampleFragment;
     EvAppend (VString (lit "X")) (VString (lit "Y")) sampleBook;
     EvNotify titleBooks (Quote (VString (lit "X")) (VString (lit "Y")) sampleBook
                                (lit "/logs/2026-01-01.md"));
     EvNotify titleError (ErrorText (lit "no display"))].
Proof. vm_compute. reflexivity. Qed.

Example runOnce_empty_quotes :
  @runOnce latin1Host (sampleWorld answersEmptyQuote notifierUp) []
  = (Ok tt,
     [done (EvReaddir (lit "/books")); done (EvExtract samplePath)]
     ++ repeat (done (EvChat sampleBook sampleFragment)) 6
     ++ [done (EvNotify titleOraculo (FrontMatter sampleBook))]).
Proof. vm_compute. reflexivity. Qed.

(** ** The model on small inputs *)

(** 20 digits in 250 code units are 8 percent, which is not above 0.08; 21
    digits are. *)
Example digitHeavy_boundary :
  digitHeavy (letters 230 ++ repeat 48%N 20) = false
  /\ digitHeavy (letters 229 ++ repeat 48%N 21) = true.
Proof. split; vm_compute; reflexivity. Qed.

(** Six short lines out of ten are 60 percent, which is not above 0.6; seven
    are. *)
Example lineShape_boundary :
  lineShape (join [LF] (repeat (letters 5) 6 ++ repeat (letters 30) 4)) = false
  /\ lineShape (join [LF] (repeat (letters 5) 7 ++ repeat (letters 30) 3)) = true.
Proof. split; vm_compute; reflexivity. Qed.

(** Empty lines do not count: seven lines of text among ten lines are fewer
    than eight. *)
Example lineShape_empty_lines :
  lineShape (join [LF] (repeat (letters 5) 7 ++ repeat [] 3)) = false.
Proof. vm_compute. reflexivity. Qed.

(** Windows at the end of the paragraphs have two paragraphs and one; past the
    end they are empty. *)
Example window_at_the_end :
  let paras := [lit "a"; lit "b"; lit "c"; lit "d"; lit "e"] in
  window paras 2 = lit "c" ++ [LF; LF] ++ lit "d" ++ [LF; LF] ++ lit "e"
  /\ window paras 3 = lit "d" ++ [LF; LF] ++ lit "e"
  /\ window paras 4 = lit "e"
  /\ window paras 5 = [].
Proof. repeat split. Qed.

(** The hints are looked for in the lower-cased fragment: INDICE with a
    capital I-acute (U+00CD) is found. *)
Example hasJunkHint_accent :
  @hasJunkHint latin1Host (letters 300 ++ 205%N :: lit "NDICE") = true
  /\ @hasJunkHint latin1Host (letters 300) = false.
Proof. split; vm_compute; reflexivity. Qed.

Example paragraphs_blank_lines :
  paragraphs (normalizeText (lit " one " ++ [LF; LF; LF; CR; LF] ++ lit "two" ++ [LF] ++ lit "three"))
  = [lit "one"; lit "two" ++ [LF] ++ lit "three"].
Proof. vm_compute. reflexivity. Qed.

(** * Further properties *)

(** ** Text Normalizer: what it keeps *)

Lemma textOf_app (a b : jsstring) : textOf (a ++ b) = textOf a ++ textOf b.
Proof. apply filter_app. Qed.

Lemma textOf_blank (a : jsstring) : forallb isWhiteSpace a = true -> textOf a = [].
Proof.
  induction a as [|c a IH]; simpl; [easy|].
  rewrite andb_true_iff. intros [Hc Ha]. now rewrite Hc, IH.
Qed.

Lemma textOf_replaceCR (t : jsstring) : textOf (replaceCR t) = textOf t.
Proof.
  induction t as [|c t IH]; simpl; [easy|].
  destruct (N.eqb_spec c CR) as [->|_]; simpl; now rewrite IH.
Qed.

Lemma isBlank_whiteSpace c : isBlank c = true -> isWhiteSpace c = true.
Proof.
  unfold isBlank. rewrite orb_true_iff, !N.eqb_eq. now intros [->| ->].
Qed.

Lemma textOf_collapseBlanks (b : bool) (t : jsstring) :
  textOf (collapseBlanks b t) = textOf t.
Proof.
  revert b. induction t as [|c t IH]; simpl; intros b; [easy|].
  destruct (isBlank c) eqn:B.
  - rewrite (isBlank_whiteSpace c B). simpl. destruct b; simpl; apply IH.
  - simpl. now rewrite IH.
Qed.

Lemma textOf_flushNewlines k : textOf (flushNewlines k) = [].
Proof.
  unfold flushNewlines. destruct (3 <=? k); [reflexivity|].
  induction k as [|k IH]; simpl; [easy | exact IH].
Qed.

Lemma textOf_squeezeNewlines k (t : jsstring) :
  textOf (squeezeNewlines k t) = textOf t.
Proof.
  revert k. induction t as [|c t IH]; simpl; intros k.
  - apply textOf_flushNewlines.
  - destruct (N.eqb_spec c LF) as [->|_].
    + simpl. apply IH.
    + rewrite textOf_app, textOf_flushNewlines. simpl. now rewrite IH.
Qed.

Lemma textOf_trim (s : jsstring) : textOf (trim s) = textOf s.
Proof.
  destruct (trim_split s) as (a & b & E & Ha & Hb).
  rewrite E at 2. now rewrite !textOf_app, (textOf_blank a Ha), (textOf_blank b Hb), app_nil_r.
Qed.

Lemma textOf_normalizeText (t : jsstring) : textOf (normalizeText t) = textOf t.
Proof.
  unfold normalizeText, collapsed.
  now rewrite textOf_trim, textOf_squeezeNewlines, textOf_collapseBlanks, textOf_replaceCR.
Qed.

(** X1.  [normalizeText] changes white space only: the code units that are not
    white space come out all, unchanged and in the same order. *)
Theorem normalizeText_keeps_text (t : jsstring) :
  textOf (normalizeText t) = textOf t.
Proof.
  unfold normalizeText. rewrite textOf_trim. unfold collapsed.
  rewrite textOf_squeezeNewlines, textOf_collapseBlanks. apply textOf_replaceCR.
Qed.

Lemma collapseBlanks_length (b : bool) (t : jsstring) :
  length (collapseBlanks b t) <= length t.
Proof.
  revert b. induction t as [|c t IH]; simpl; intros b; [lia|].
  destruct (isBlank c); [destruct b|]; simpl;
    [specialize (IH true) | specialize (IH true) | specialize (IH false)]; lia.
Qed.

Lemma flushNewlines_length k : length (flushNewlines k) <= k.
Proof.
  unfold flushNewlines. destruct (3 <=? k) eqn:E.
  - apply Nat.leb_le in E. simpl. lia.
  - now rewrite repeat_length.
Qed.

Lemma squeezeNewlines_length k (t : jsstring) :
  length (squeezeNewlines k t) <= k + length t.
Proof.
  revert k. induction t as [|c t IH]; simpl; intros k.
  - pose proof (flushNewlines_length k). lia.
  - destruct (N.eqb_spec c LF) as [->|_].
    + specialize (IH (S k)). lia.
    + rewrite length_app. simpl. pose proof (flushNewlines_length k).
      specialize (IH 0). lia.
Qed.

Lemma trim_length (s : jsstring) : length (trim s) <= length s.
Proof.
  destruct (trim_split s) as (a & b & E & _). rewrite E at 2.
  rewrite !length_app. lia.
Qed.

(** X2.  [normalizeText] never makes a text longer. *)
Theorem normalizeText_length (t : jsstring) :
  length (normalizeText t) <= length t.
Proof.
  unfold normalizeText, collapsed.
  pose proof (trim_length (squeezeNewlines 0 (collapseBlanks false (replaceCR t)))).
  pose proof (squeezeNewlines_length 0 (collapseBlanks false (replaceCR t))).
  pose proof (collapseBlanks_length false (replaceCR t)).
  unfold replaceCR in *. rewrite length_map in *. lia.
Qed.

Lemma hasText_textOf (s : jsstring) : hasText s = false <-> textOf s = [].
Proof.
  unfold hasText, textOf. induction s as [|c s IH]; simpl; [easy|].
  destruct (isWhiteSpace c); simpl; [exact IH | easy].
Qed.

(** X3.  [normalizeText] gives the empty string exactly on the texts that are
    white space throughout (the empty text among them). *)
Theorem normalizeText_empty_iff (t : jsstring) :
  normalizeText t = [] <-> hasText t = false.
Proof.
  rewrite hasText_textOf, <- textOf_normalizeText. split.
  - now intros ->.
  - intros H. destruct (normalizeText t) as [|c r] eqn:E; [reflexivity|].
    pose proof (trim_trimmed (collapsed t)) as [Hh _]. fold (normalizeText t) in Hh.
    specialize (Hh c r E). unfold textOf in H. simpl in H. now rewrite Hh in H.
Qed.

(** A string in which [c] never stands [k] times in a row keeps its runs of
    [c] below [k]. *)
Lemma no_run_runsBelow (c : N) k cur (s : jsstring) :
  0 < k -> cur < k ->
  (forall a b, repeat c cur ++ s <> a ++ repeat c k ++ b) ->
  runsBelow (N.eqb c) k cur s = true.
Proof.
  intros K. revert cur. induction s as [|x s IH]; intros cur L H; [reflexivity|].
  simpl. destruct (N.eqb_spec c x) as [<-|Hx].
  - assert (S cur < k).
    { destruct (Nat.eq_dec (S cur) k) as [E|E]; [|lia].
      exfalso. apply (H [] s). simpl. rewrite <- E.
      change (repeat c (S cur)) with (c :: repeat c cur).
      now rewrite repeat_cons, <- app_assoc. }
    rewrite (proj2 (Nat.ltb_lt _ _) H0). simpl. apply IH; [exact H0|].
    intros a b E. apply (H a b). rewrite <- E.
    change (repeat c (S cur)) with (c :: repeat c cur).
    now rewrite repeat_cons, <- app_assoc.
  - apply IH; [exact K|]. intros a b E. simpl in E.
    apply (H (repeat c cur ++ x :: a) b). rewrite E. now rewrite <- app_assoc.
Qed.

Lemma not_includes_runsBelow (c : N) k (s : jsstring) :
  0 < k -> includes s (repeat c k) = false -> runsBelow (N.eqb c) k 0 s = true.
Proof.
  intros K H. apply no_run_runsBelow; trivial. intros a b E. simpl in E.
  rewrite E, includes_app in H. discriminate H.
Qed.

Lemma runsBelow_not_includes (c : N) k (s : jsstring) :
  0 < k -> runsBelow (N.eqb c) k 0 s = true -> includes s (repeat c k) = false.
Proof.
  intros K H. apply not_includes. intros a b E.
  assert (L : length (repeat c k) < k).
  { apply (runsBelow_no_run (N.eqb c) k s a (repeat c k) b H E).
    - apply forallb_forall. intros x Hx. apply repeat_spec in Hx. subst. apply N.eqb_refl.
    - destruct k; [lia | discriminate]. }
  rewrite repeat_length in L. lia.
Qed.

Lemma runsBelow_ext p q k cur (s : jsstring) :
  (forall c, p c = q c) -> runsBelow p k cur s = runsBelow q k cur s.
Proof.
  intros E. revert cur. induction s as [|c s IH]; intros cur; simpl; [easy|].
  now rewrite E, !IH.
Qed.

(** X4.  The fixed points of [normalizeText] are exactly the strings without
    carriage return and tab, without two spaces in a row, without three line
    feeds in a row, and without white space at either end. *)
Theorem normalizeText_fixed_iff (s : jsstring) :
  normalizeText s = s
  <-> (~ In CR s /\ ~ In TAB s /\ includes s [SP; SP] = false
       /\ includes s [LF; LF; LF] = false /\ trimmed s).
Proof.
  assert (ES : forall c, isSP c = N.eqb SP c) by (intros c; apply N.eqb_sym).
  assert (EL : forall c, isLF c = N.eqb LF c) by (intros c; apply N.eqb_sym).
  split.
  - intros E. rewrite <- E. repeat split.
    + apply normalizeText_noCR.
    + apply normalizeText_noTAB.
    + apply (runsBelow_not_includes SP 2); [lia|].
      rewrite <- (runsBelow_ext _ _ _ _ _ ES). apply normalizeText_spaces.
    + apply (runsBelow_not_includes LF 3); [lia|].
      rewrite <- (runsBelow_ext _ _ _ _ _ EL). apply normalizeText_newlines.
    + apply (proj1 (trim_trimmed (collapsed s))).
    + apply (proj2 (trim_trimmed (collapsed s))).
  - intros (H1 & H2 & H3 & H4 & H5). apply normalizeText_fixed; trivial.
    + rewrite (runsBelow_ext _ _ _ _ _ ES). now apply (not_includes_runsBelow SP 2); [lia|].
    + rewrite (runsBelow_ext _ _ _ _ _ EL). now apply (not_includes_runsBelow LF 3); [lia|].
Qed.

(** ** Junk Classifier: markers and lines *)

Lemma latin1Lower_latin1 (w : jsstring) :
  forallb isLatin1 (map latin1Lower w) = true -> forallb isLatin1 w = true.
Proof.
  induction w as [|c w IH]; simpl; [easy|].
  rewrite !andb_true_iff. intros [H1 H2]. split; [|now apply IH].
  unfold isLatin1, latin1Lower in *.
  destruct ((65 <=? c) && (c <=? 90) || (192 <=? c) && (c <=? 222) && negb (c =? 215))%N.
  - apply N.ltb_lt in H1. apply N.ltb_lt. lia.
  - exact H1.
Qed.

Lemma junkHints_latin1 : Forall (fun h => forallb isLatin1 h = true) junkHints.
Proof. repeat constructor. Qed.

Lemma splitLines_length (cur s : jsstring) :
  length (splitLines cur s) = S (length (filter isLF s)).
Proof.
  revert cur. induction s as [|c s IH]; simpl; intros cur; [easy|].
  unfold isLF at 1. destruct (N.eqb_spec c LF); simpl; now rewrite IH.
Qed.

(** X6.  The line-shape rule never rejects a fragment with fewer than seven
    line feeds: it has fewer than eight lines. *)
Theorem lineShape_few_lines (fragment : jsstring) :
  length (filter isLF fragment) < 7 -> lineShape fragment = false.
Proof.
  intros H. unfold lineShape.
  pose proof (filter_length_le nonEmpty (splitLines [] fragment)) as L.
  rewrite splitLines_length in L.
  replace (8 <=? _) with false; [reflexivity|].
  symmetry. apply Nat.leb_gt. lia.
Qed.

(** Witness for X6: seven lines of five letters. *)
Lemma lineShape_few_lines_witness :
  lineShape (join [LF] (repeat (letters 5) 7)) = false.
Proof.
  apply lineShape_few_lines. apply Nat.ltb_lt. vm_compute. reflexivity.
Defined.

Section MoreClassifierFacts.
Context {host : Host}.

(** X5.  When [toLowerCase] lowers Latin-1 text in place, as case conversion
    does, a fragment that contains any of the ten marker phrases in any
    letter case, accented capitals included, is junk. *)
Theorem looksLikeJunk_marker (fragment a w b h : jsstring) :
  lowersLatin1 toLowerCase ->
  In h junkHints -> fragment = a ++ w ++ b -> map latin1Lower w = h ->
  looksLikeJunk fragment = true.
Proof.
  intros L Hh -> E. apply looksLikeJunk_hint. unfold hasJunkHint.
  destruct (L a w b) as (a' & b' & ->).
  - apply latin1Lower_latin1. rewrite E.
    apply (proj1 (Forall_forall _ _) junkHints_latin1 h Hh).
  - apply existsb_exists. exists h. split; [exact Hh|].
    rewrite E. apply includes_app.
Qed.

(** ** Fragment Selector: which fragment comes back *)

Lemma sample_Some_iff draw paras n attempt f :
  sample draw paras n attempt = Some f
  <-> exists k, k < n
                /\ f = clip (window paras (draw (attempt + k)))
                /\ looksLikeJunk f = false
                /\ forall j, j < k ->
                     looksLikeJunk (clip (window paras (draw (attempt + j)))) = true.
Proof.
  revert attempt. induction n as [|n IH]; simpl; intros attempt.
  - split; [easy | intros (k & Hk & _); lia].
  - destruct (looksLikeJunk (clip (window paras (draw attempt)))) eqn:J.
    + rewrite IH. split.
      * intros (k & Hk & E & U & B). exists (S k). split; [lia|].
        rewrite <- Nat.add_succ_comm. repeat split; trivial.
        intros [|j] Hj; [now rewrite Nat.add_0_r|].
        rewrite <- Nat.add_succ_comm. apply B. lia.
      * intros ([|k] & Hk & E & U & B).
        -- rewrite Nat.add_0_r in E. subst f. rewrite J in U. discriminate U.
        -- exists k. split; [lia|]. rewrite Nat.add_succ_comm. repeat split; trivial.
           intros j Hj. rewrite Nat.add_succ_comm. apply B. lia.
    + split.
      * intros [= <-]. exists 0. rewrite Nat.add_0_r. repeat split; trivial; lia.
      * intros ([|k] & Hk & E & U & B).
        -- rewrite Nat.add_0_r in E. now subst f.
        -- specialize (B 0 ltac:(lia)). rewrite Nat.add_0_r, J in B. discriminate B.
Qed.

Lemma looksLikeJunk_short (f : jsstring) : looksLikeJunk f = false -> 220 <= length f.
Proof.
  unfold looksLikeJunk, tooShort. destruct (length f <? 220) eqn:E; [discriminate|].
  intros _. now apply Nat.ltb_ge.
Qed.

(** X8.  The first usable window wins: [pickFragment] returns [f] exactly
    when the text has 800 normalized code units and five paragraphs or more,
    and one of the twelve draws, an index of a paragraph, gives the clipped
    window [f], usable and of 220 code units or more, while every draw
    before it gave junk. *)
Theorem pickFragment_first_success draw fullText f :
  pickFragment draw fullText = Some f
  <-> 800 <= length (normalizeText fullText)
      /\ 5 <= length (paragraphs (normalizeText fullText))
      /\ exists k,
           k < 12
           /\ draw k < length (paragraphs (normalizeText fullText))
           /\ f = clip (window (paragraphs (normalizeText fullText)) (draw k))
           /\ looksLikeJunk f = false
           /\ 220 <= length f
           /\ forall j, j < k ->
                looksLikeJunk
                  (clip (window (paragraphs (normalizeText fullText)) (draw j))) = true.
Proof.
  unfold pickFragment.
  destruct (length (normalizeText fullText) <? 800) eqn:E8.
  { apply Nat.ltb_lt in E8. split; [easy | intros (H & _); lia]. }
  destruct (length (paragraphs (normalizeText fullText)) <? 5) eqn:E5.
  { apply Nat.ltb_lt in E5. split; [easy | intros (_ & H & _); lia]. }
  apply Nat.ltb_ge in E8, E5. rewrite sample_Some_iff. split.
  - intros (k & Hk & E & U & B). repeat split; trivial. exists k.
    pose proof (looksLikeJunk_short f U) as L.
    repeat split; trivial.
    destruct (Nat.lt_ge_cases (draw k) (length (paragraphs (normalizeText fullText))))
      as [R|R]; [exact R|].
    simpl in E. rewrite (window_out_of_range _ _ R) in E. subst f. simpl in L. lia.
  - intros (_ & _ & k & Hk & _ & E & U & _ & B). now exists k.
Qed.

(** X9.  [pickFragment] sees a text through [normalizeText] only: a text and
    its normalized form give the same fragment. *)
Theorem pickFragment_normalized draw fullText :
  pickFragment draw (normalizeText fullText) = pickFragment draw fullText.
Proof.
  unfold pickFragment.
  rewrite (normalizeText_fixed (normalizeText fullText)); [reflexivity| | | | |].
  - apply normalizeText_noCR.
  - apply normalizeText_noTAB.
  - apply normalizeText_spaces.
  - apply normalizeText_newlines.
  - apply trim_trimmed.
Qed.

End MoreClassifierFacts.

Lemma definedNonEmpty_slice (l : list jsstring) :
  Forall (fun p => nonEmpty p = true) l ->
  definedNonEmpty [nth_error l 0; nth_error l 1; nth_error l 2] = firstn 3 l.
Proof.
  intros H. destruct l as [|a [|b [|c l]]]; simpl; [reflexivity| | |].
  - inversion H as [|? ? Ha _]. now rewrite Ha.
  - inversion H as [|? ? Ha H']. inversion H' as [|? ? Hb _]. now rewrite Ha, Hb.
  - inversion H as [|? ? Ha H']. inversion H' as [|? ? Hb H'']. inversion H'' as [|? ? Hc _].
    now rewrite Ha, Hb, Hc.
Qed.

Lemma Forall_skipn {A} (P : A -> Prop) (l : list A) i : Forall P l -> Forall P (skipn i l).
Proof.
  intros H. apply Forall_forall. intros x Hx.
  apply (proj1 (Forall_forall P l) H). rewrite <- (firstn_skipn i l).
  apply in_or_app. now right.
Qed.

Lemma window_of_nonEmpty (paras : list jsstring) i :
  Forall (fun p => nonEmpty p = true) paras ->
  window paras i = join [LF; LF] (firstn 3 (skipn i paras)).
Proof.
  intros H. unfold window. f_equal.
  rewrite <- (definedNonEmpty_slice (skipn i paras)) by now apply Forall_skipn.
  rewrite !nth_error_skipn. now rewrite Nat.add_0_r.
Qed.

Lemma paragraphs_nonEmpty (text : jsstring) :
  Forall (fun p => nonEmpty p = true) (paragraphs text).
Proof. apply Forall_forall. intros p Hp. now apply filter_In in Hp. Qed.

(** X11.  A window is the paragraphs at [i], [i + 1] and [i + 2], as many as
    there are, joined by blank lines: at the end of the text it has two
    paragraphs or one, past the end none. *)
Theorem window_slice (text : jsstring) i :
  window (paragraphs text) i
  = join [LF; LF] (firstn 3 (skipn i (paragraphs text))).
Proof. apply window_of_nonEmpty, paragraphs_nonEmpty. Qed.

(** Witness for X5: CAPITULO in capitals, with a capital I-acute. *)
Lemma looksLikeJunk_marker_witness :
  @looksLikeJunk latin1Host (letters 300 ++ (lit "CAP" ++ 205%N :: lit "TULO") ++ letters 5) = true.
Proof.
  apply (@looksLikeJunk_marker latin1Host _ (letters 300) (lit "CAP" ++ 205%N :: lit "TULO")
           (letters 5) (lit "cap" ++ I_ACUTE :: lit "tulo")).
  - intros a w b _. exists (map latin1Lower a), (map latin1Lower b).
    cbn [toLowerCase latin1Host]. now rewrite !map_app.
  - do 6 right. left. reflexivity.
  - reflexivity.
  - reflexivity.
Defined.

(** ** Fragment Selector: paragraphs and windows *)

Lemma splitBlank_eq (cur : jsstring) (c d : N) (r : jsstring) :
  splitBlank cur (c :: d :: r)
  = if ((c =? LF) && (d =? LF))%N then rev cur :: splitBlank [] r
    else splitBlank (c :: cur) (d :: r).
Proof. reflexivity. Qed.

Lemma splitBlank_acc (s cur : jsstring) :
  splitBlank cur s = (rev cur ++ hd [] (splitBlank [] s)) :: tl (splitBlank [] s).
Proof.
  revert cur.
  enough (H : (forall cur, splitBlank cur s
                           = (rev cur ++ hd [] (splitBlank [] s)) :: tl (splitBlank [] s))
              /\ (forall c cur, splitBlank cur (c :: s)
                                = (rev cur ++ hd [] (splitBlank [] (c :: s)))
                                  :: tl (splitBlank [] (c :: s)))) by apply H.
  induction s as [|d s [IH1 IH2]].
  - split; intros; simpl; now rewrite ?app_nil_r.
  - split; [apply IH2|]. intros c cur. rewrite !splitBlank_eq.
    destruct ((c =? LF) && (d =? LF))%N.
    + simpl. now rewrite app_nil_r.
    + rewrite (IH2 d (c :: cur)), (IH2 d [c]). simpl. now rewrite <- !app_assoc.
Qed.

Lemma splitBlank_cons (c : N) (r : jsstring) :
  splitBlank [] (c :: r)
  = match r with
    | [] => [[c]]
    | d :: r' =>
        if ((c =? LF) && (d =? LF))%N then [] :: splitBlank [] r'
        else (c :: hd [] (splitBlank [] r)) :: tl (splitBlank [] r)
    end.
Proof.
  destruct r as [|d r']; [reflexivity|]. rewrite splitBlank_eq.
  destruct ((c =? LF) && (d =? LF))%N; [reflexivity|].
  now rewrite splitBlank_acc.
Qed.

Lemma splitBlank_nonempty (s : jsstring) :
  splitBlank [] s = hd [] (splitBlank [] s) :: tl (splitBlank [] s).
Proof. rewrite splitBlank_acc at 1. reflexivity. Qed.

(** No piece between two blank lines has a blank line in it. *)
Lemma splitBlank_runs (s : jsstring) :
  Forall (fun p => runsBelow isLF 2 0 p = true) (splitBlank [] s).
Proof.
  enough (H : Forall (fun p => runsBelow isLF 2 0 p = true) (splitBlank [] s)
              /\ forall c, Forall (fun p => runsBelow isLF 2 0 p = true)
                                  (splitBlank [] (c :: s))) by apply H.
  induction s as [|d s [IH1 IH2]].
  - split; [now repeat constructor|]. intros c. repeat constructor. simpl.
    now destruct (isLF c).
  - split; [apply IH2|]. intros c. rewrite splitBlank_cons.
    destruct (N.eqb_spec c LF) as [->|Hc]; simpl andb.
    + destruct (N.eqb_spec d LF) as [->|Hd].
      * constructor; [reflexivity | exact IH1].
      * specialize (IH2 d). rewrite splitBlank_cons in *.
        destruct s as [|e s'].
        -- repeat constructor. simpl. unfold isLF.
           now destruct (N.eqb_spec d LF).
        -- assert (E : ((d =? LF) && (e =? LF))%N = false)
             by (now destruct (N.eqb_spec d LF)).
           rewrite E in *. inversion IH2 as [|? ? Hh Ht]; subst.
           constructor; [|exact Ht]. cbn [hd]. simpl in Hh |- *.
           unfold isLF in *. now destruct (N.eqb_spec d LF).
    + specialize (IH2 d). rewrite (splitBlank_nonempty (d :: s)) in IH2.
      inversion IH2 as [|? ? Hh Ht]; subst. constructor; [|exact Ht].
      simpl. unfold isLF at 1. now destruct (N.eqb_spec c LF).
Qed.

Lemma isLF_eqb c : isLF c = N.eqb LF c.
Proof. apply N.eqb_sym. Qed.

Lemma trimmed_last_not_LF (p : jsstring) : trimmed p -> forall q, p <> q ++ [LF].
Proof. intros [_ H] q E. now specialize (H q LF E). Qed.

Lemma paragraph_facts (text p : jsstring) :
  In p (paragraphs text) -> p <> [] /\ trimmed p /\ includes p [LF; LF] = false.
Proof.
  intros Hp. unfold paragraphs in Hp.
  apply filter_In in Hp as [Hp Hn]. apply in_map_iff in Hp as (q & <- & Hq).
  split; [intros E; now rewrite E in Hn|]. split; [apply trim_trimmed|].
  apply (runsBelow_not_includes LF 2); [lia|].
  rewrite <- (runsBelow_ext _ _ _ _ _ isLF_eqb).
  destruct (trim_split q) as (a & b & E & _).
  apply (runs_infix isLF 2 q a (trim q) b); [|exact E].
  apply (proj1 (Forall_forall _ _) (splitBlank_runs text) q Hq).
Qed.

(** X10.  Every paragraph the selector works with is non-empty, has no white
    space at either end, and has no blank line inside. *)
Theorem paragraphs_shape (text : jsstring) :
  Forall (fun p => p <> [] /\ trimmed p /\ includes p [LF; LF] = false)
         (paragraphs text).
Proof. apply Forall_forall. intros p Hp. now apply (paragraph_facts text). Qed.

Lemma runsBelow_LF_pair (c d : N) (r : jsstring) :
  runsBelow isLF 2 0 (c :: d :: r) = true -> ((c =? LF) && (d =? LF))%N = false.
Proof.
  simpl. unfold isLF. destruct (N.eqb_spec c LF); [|easy].
  now destruct (N.eqb_spec d LF).
Qed.

Lemma runsBelow_tail p k (c : N) (r : jsstring) :
  runsBelow p k 0 (c :: r) = true -> runsBelow p k 0 r = true.
Proof. apply (runsBelow_suffix p k 0 [c] r). Qed.

Lemma splitBlank_whole (p : jsstring) :
  runsBelow isLF 2 0 p = true -> splitBlank [] p = [p].
Proof.
  induction p as [|c p IH]; intros H; [reflexivity|].
  rewrite splitBlank_cons. destruct p as [|d p']; [reflexivity|].
  rewrite (runsBelow_LF_pair c d p' H), IH; [reflexivity|].
  now apply runsBelow_tail in H.
Qed.

Lemma splitBlank_piece (p rest : jsstring) :
  runsBelow isLF 2 0 p = true -> (forall q, p <> q ++ [LF]) ->
  splitBlank [] (p ++ LF :: LF :: rest) = p :: splitBlank [] rest.
Proof.
  induction p as [|c p IH]; intros H L; [reflexivity|].
  change ((c :: p) ++ LF :: LF :: rest) with (c :: (p ++ LF :: LF :: rest)).
  rewrite splitBlank_cons.
  destruct p as [|d p'].
  - simpl app. assert (c <> LF) by (intros ->; now apply (L [])).
    destruct (N.eqb_spec c LF); [easy|]. reflexivity.
  - change ((d :: p') ++ LF :: LF :: rest) with (d :: (p' ++ LF :: LF :: rest)).
    cbv beta iota. rewrite (runsBelow_LF_pair c d p' H).
    change (d :: p' ++ LF :: LF :: rest) with ((d :: p') ++ LF :: LF :: rest).
    rewrite IH; [reflexivity | now apply runsBelow_tail in H |].
    intros q E. apply (L (c :: q)). simpl. now rewrite E.
Qed.

(** Paragraphs joined by blank lines split into themselves again. *)
Lemma paragraphs_join (ps : list jsstring) :
  Forall (fun p => p <> [] /\ trimmed p /\ includes p [LF; LF] = false) ps ->
  paragraphs (join [LF; LF] ps) = ps.
Proof.
  assert (G : forall p, p <> [] /\ trimmed p /\ includes p [LF; LF] = false ->
               runsBelow isLF 2 0 p = true /\ trim p = p /\ nonEmpty p = true).
  { intros p (Hn & Ht & Hi). split; [|split].
    - rewrite (runsBelow_ext _ _ _ _ _ isLF_eqb). now apply (not_includes_runsBelow LF 2); [lia|].
    - now apply trim_id.
    - now destruct p. }
  induction 1 as [|p ps Hp Hps IH]; [reflexivity|].
  destruct (G p Hp) as (R & T & NE). destruct ps as [|q ps].
  - simpl join. unfold paragraphs. rewrite (splitBlank_whole p R). simpl.
    now rewrite T, NE.
  - change (join [LF; LF] (p :: q :: ps)) with (p ++ LF :: LF :: join [LF; LF] (q :: ps)).
    unfold paragraphs in *. rewrite splitBlank_piece.
    + cbn [map filter]. now rewrite T, NE, IH.
    + exact R.
    + apply trimmed_last_not_LF. apply Hp.
Qed.

Lemma Forall_firstn {A} (P : A -> Prop) (l : list A) n : Forall P l -> Forall P (firstn n l).
Proof.
  intros H. apply Forall_forall. intros x Hx.
  apply (proj1 (Forall_forall P l) H). rewrite <- (firstn_skipn n l).
  apply in_or_app. now left.
Qed.

(** X12.  A window splits back into the paragraphs it was made of: the
    paragraphs of the window at [i] are the paragraphs at [i], [i + 1] and
    [i + 2] of the text, as many as there are. *)
Theorem paragraphs_window (text : jsstring) i :
  paragraphs (window (paragraphs text) i) = firstn 3 (skipn i (paragraphs text)).
Proof.
  rewrite window_of_nonEmpty by apply paragraphs_nonEmpty.
  apply paragraphs_join. apply Forall_firstn, Forall_skipn.
  apply Forall_forall. intros p Hp. now apply (paragraph_facts text).
Qed.

(** ** Run Orchestrator: how a run ends *)

Section RunOutcomes.
Context {host : Host}.
Variable W : World.

Lemma softRange_next b f base k c :
  groq_chat W base b f = Ok c -> softFailure (responseText c) = true ->
  softRange W b f (S base) k -> softRange W b f base (S k).
Proof.
  intros E Hs H [|i] Hi.
  - exists c. now rewrite Nat.add_0_r.
  - destruct (H i ltac:(lia)) as (c' & E' & S'). exists c'.
    now rewrite <- Nat.add_succ_comm.
Qed.

Lemma countChat_snoc_chat tr b f :
  countChat (tr ++ [done (EvChat b f)]) = S (countChat tr).
Proof. rewrite countChat_app. unfold countChat at 2. simpl. lia. Qed.

(** The loop ends in one of three ways: its answers are used up, a call to
    the model throws, or an answer passes both tests. *)
Lemma queryLoop_cases n b f tr :
  (softRange W b f (countChat tr) n
   /\ queryLoop W n b f tr = (Ok false, tr ++ repeat (done (EvChat b f)) n))
  \/ (exists k e,
        k < n /\ softRange W b f (countChat tr) k
        /\ groq_chat W (countChat tr + k) b f = Throw e
        /\ queryLoop W n b f tr
           = (Throw e, tr ++ repeat (done (EvChat b f)) k ++ [(EvChat b f, Some e)]))
  \/ (exists k content,
        k < n /\ softRange W b f (countChat tr) k
        /\ groq_chat W (countChat tr + k) b f = Ok content
        /\ softFailure (responseText content) = false
        /\ queryLoop W n b f tr
           = keepQuote W b (safeJsonParse (responseText content))
               (tr ++ repeat (done (EvChat b f)) (S k))).
Proof.
  revert tr. induction n as [|n IH]; intros tr.
  - left. split; [intros i Hi; lia|]. simpl. now rewrite app_nil_r.
  - destruct (groq_chat W (countChat tr) b f) as [content|e] eqn:E.
    2:{ right. left. exists 0, e. rewrite Nat.add_0_r.
        repeat split; [lia | intros i Hi; lia | exact E|].
        now rewrite (queryLoop_throw W n b f tr e E). }
    destruct (softFailure (responseText content)) eqn:Hs.
    2:{ right. right. exists 0, content. rewrite Nat.add_0_r.
        repeat split; [lia | intros i Hi; lia | exact E | exact Hs|].
        now rewrite (queryLoop_quote W n b f tr content E Hs). }
    rewrite (queryLoop_soft W n b f tr content E Hs).
    destruct (IH (tr ++ [done (EvChat b f)])) as [[R Q]|[(k & e & K & R & T & Q)|(k & c & K & R & A & V & Q)]];
      rewrite countChat_snoc_chat in *.
    + left. split; [now apply (softRange_next b f _ n content)|].
      rewrite Q, <- app_assoc. reflexivity.
    + right. left. exists (S k), e.
      repeat split; [lia | now apply (softRange_next b f _ k content) | |].
      * now rewrite <- Nat.add_succ_comm.
      * rewrite Q, <- app_assoc. reflexivity.
    + right. right. exists (S k), c.
      repeat split; [lia | now apply (softRange_next b f _ k content) | | exact V |].
      * now rewrite <- Nat.add_succ_comm.
      * rewrite Q, <- app_assoc. reflexivity.
Qed.

Lemma keepQuote_cases b json tr :
  keepQuote W b json tr
  = match fs_appendLog W (getProp json cita) (getProp json reflexion) b with
    | Throw e =>
        (Throw e, tr ++ [(EvAppend (getProp json cita) (getProp json reflexion) b, Some e)])
    | Ok filePath =>
        match notifier_notify W (countNotify tr) titleBooks
                (Quote (getProp json cita) (getProp json reflexion) b filePath) with
        | Ok _ =>
            (Ok true,
             tr ++ [done (EvAppend (getProp json cita) (getProp json reflexion) b);
                    done (EvNotify titleBooks
                            (Quote (getProp json cita) (getProp json reflexion) b filePath))])
        | Throw e =>
            (Throw e,
             tr ++ [done (EvAppend (getProp json cita) (getProp json reflexion) b);
                    (EvNotify titleBooks
                       (Quote (getProp json cita) (getProp json reflexion) b filePath),
                     Some e)])
        end
    end.
Proof.
  unfold keepQuote, bind, saveQuoteToDailyMd, notify, perform, ret.
  destruct (fs_appendLog W _ _ b) as [filePath|e]; [|reflexivity].
  rewrite countNotify_app. cbn [failure].
  replace (countNotify tr + countNotify [(EvAppend (getProp json cita) (getProp json reflexion) b, None)])
    with (countNotify tr) by (unfold countNotify; simpl; lia).
  destruct (notifier_notify W (countNotify tr) titleBooks _) as [u|e];
    cbn [failure]; now rewrite <- app_assoc.
Qed.

Lemma softFailure_truthy out :
  softFailure out = false -> truthy (getProp (safeJsonParse out) cita) = true.
Proof.
  unfold softFailure. intros H. apply orb_false_iff in H as [_ H].
  now apply negb_false_iff in H.
Qed.

Lemma countNotify_before chosen b f k :
  countNotify (callsBeforeLoop W chosen ++ repeat (done (EvChat b f)) k) = 0.
Proof. now rewrite countNotify_app, countNotify_chats. Qed.

Lemma unit_answer (answer : result unit) :
  match answer with Ok _ => Ok tt | Throw e => Throw e end = answer.
Proof. now destruct answer as [[]|e]. Qed.

(** Every guarded block ends in one of the nine ways of [Body]. *)
Lemma runBody_outcome : Body W (fst (runBody W [])) (snd (runBody W [])).
Proof.
  destruct (fs_readdir W (BOOKS_DIR W)) as [items|e] eqn:Er.
  2:{ unfold runBody, listPdfs, bind, perform. rewrite Er. now constructor. }
  destruct (pdfsOf W items) as [|p ps] eqn:Ep.
  { unfold runBody, listPdfs, bind, perform, ret. rewrite Er. fold (pdfsOf W items).
    rewrite Ep. unfold notify, perform. cbn [fst snd app failure].
    change (countNotify [(EvReaddir (BOOKS_DIR W), None)]) with 0.
    eapply BodyNoPdfs; eauto. }
  destruct (randomPick W 0 (pdfsOf W items)) as [chosen|] eqn:Ec.
  2:{ unfold runBody, listPdfs, bind, perform, ret. rewrite Er. fold (pdfsOf W items).
      rewrite Ep. rewrite <- Ep, Ec. unfold throw. cbn [fst snd app failure].
      eapply BodyNoPick; eauto. now rewrite Ep. }
  destruct (pdf_text W chosen) as [text|e] eqn:Et.
  2:{ unfold runBody, listPdfs, bind, perform, ret. rewrite Er. fold (pdfsOf W items).
      rewrite Ep. rewrite <- Ep, Ec. unfold extractPdfText, bind, perform. rewrite Et.
      cbn [fst snd app failure]. eapply BodyExtractThrows; eauto. }
  destruct (pickFragment (fun k => math_random W (S k))
              (match text with Some t => t | None => [] end)) as [f|] eqn:Ef.
  2:{ unfold runBody, listPdfs, bind, perform, ret. rewrite Er. fold (pdfsOf W items).
      rewrite Ep. rewrite <- Ep, Ec. unfold extractPdfText, bind, perform, ret. rewrite Et, Ef.
      unfold notify, perform. cbn [fst snd app failure].
      change (countNotify [(EvReaddir (BOOKS_DIR W), None); (EvExtract chosen, None)]) with 0.
      eapply BodyNoFragment; eauto. intros f. now rewrite Ef. }
  destruct (nonEmpty f) eqn:Ne.
  2:{ unfold runBody, listPdfs, bind, perform, ret. rewrite Er. fold (pdfsOf W items).
      rewrite Ep. rewrite <- Ep, Ec. unfold extractPdfText, bind, perform, ret.
      rewrite Et, Ef, Ne. unfold notify, perform. cbn [fst snd app failure negb].
      change (countNotify [(EvReaddir (BOOKS_DIR W), None); (EvExtract chosen, None)]) with 0.
      eapply BodyNoFragment; eauto.
      intros f'. rewrite Ef. intros [= <-]. now destruct f. }
  assert (R : reachesLoop W chosen (path_basename chosen) f).
  { exists items, text. now repeat split. }
  rewrite (runBody_reaches W chosen _ f R). unfold bind.
  destruct (queryLoop_cases 6 (path_basename chosen) f (callsBeforeLoop W chosen))
    as [[Sr Q]|[(k & e & K & Sr & T & Q)|(k & c & K & Sr & A & V & Q)]];
    change (countChat (callsBeforeLoop W chosen)) with 0 in *; cbn [Nat.add] in *; rewrite Q.
  - unfold notify, perform. rewrite countNotify_before. cbn [fst snd].
    rewrite <- app_assoc. eapply BodyFrontMatter; eauto.
  - cbn [fst snd]. eapply BodyModelThrows; eauto.
  - rewrite keepQuote_cases, countNotify_before.
    pose proof (softFailure_truthy _ V) as Tr.
    destruct (fs_appendLog W _ _ (path_basename chosen)) as [filePath|e] eqn:Ea.
    + pose proof (@BodyQuote host W chosen _ f k (safeJsonParse (responseText c)) filePath _
                    R K Sr Tr Ea eq_refl) as B.
      destruct (notifier_notify W 0 titleBooks _) as [[]|e] eqn:En;
        unfold ret; cbn [fst snd failure] in *; rewrite <- app_assoc; exact B.
    + cbn [fst snd]. rewrite <- app_assoc. eapply BodyAppendThrows; eauto.
Qed.

End RunOutcomes.

Section RunTraces.
Context {host : Host}.
Variable W : World.

(** A run is its guarded block, followed by the error notification when the
    block throws. *)
Lemma runOnce_outcome :
  exists r tr,
    Body W r tr
    /\ snd (runOnce W [])
       = tr ++ match r with
               | Ok _ => []
               | Throw e =>
                   [(errorNotice e,
                     failure (notifier_notify W (countNotify tr) titleError
                                (ErrorText (errorText e))))]
               end
    /\ fst (runOnce W [])
       = match r with
         | Ok a => Ok a
         | Throw e => notifier_notify W (countNotify tr) titleError (ErrorText (errorText e))
         end.
Proof.
  exists (fst (runBody W [])), (snd (runBody W [])).
  split; [apply runBody_outcome|]. rewrite runOnce_trace.
  destruct (runBody W []) as [[a|e] tr]; cbn [fst snd]; [now rewrite app_nil_r | easy].
Qed.

Lemma filter_repeat_none {A} (p : A -> bool) (x : A) n :
  p x = false -> filter p (repeat x n) = [].
Proof. intros H. induction n as [|n IH]; simpl; [easy | now rewrite H]. Qed.

Lemma Forall_repeat_one {A} (P : A -> Prop) (x : A) n : P x -> Forall P (repeat x n).
Proof. intros H. induction n; simpl; now constructor. Qed.

Lemma randomPick_listed k (items : list Dirent) chosen :
  randomPick W k (pdfsOf W items) = Some chosen ->
  exists d, In d items /\ d_isFile d = true
            /\ endsWith (toLowerCase (d_name d)) (lit ".pdf") = true
            /\ chosen = path_join (BOOKS_DIR W) (d_name d).
Proof.
  unfold randomPick, pdfsOf. intros H. apply nth_error_In in H.
  apply in_map_iff in H as (d & <- & Hd). apply filter_In in Hd as [Hd P].
  unfold isPdf in P. apply andb_true_iff in P as [P1 P2]. now exists d.
Qed.

Lemma reachesLoop_usable chosen b f :
  reachesLoop W chosen b f ->
  looksLikeJunk f = false /\ 220 <= length f /\ length f <= 1600.
Proof.
  intros (items & text & _ & _ & _ & _ & Ef & _). unfold pickFragment in Ef.
  destruct (_ <? 800); [discriminate|]. destruct (_ <? 5); [discriminate|].
  apply sample_Some in Ef as [U L]. repeat split; trivial.
  now apply looksLikeJunk_short.
Qed.

Lemma reachesLoop_listed chosen b f :
  reachesLoop W chosen b f ->
  exists items d,
    fs_readdir W (BOOKS_DIR W) = Ok items /\ In d items /\ d_isFile d = true
    /\ endsWith (toLowerCase (d_name d)) (lit ".pdf") = true
    /\ chosen = path_join (BOOKS_DIR W) (d_name d).
Proof.
  intros (items & text & Er & Ec & _). exists items.
  destruct (randomPick_listed 0 items chosen Ec) as (d & H). now exists d.
Qed.

Lemma Body_allowed r tr : Body W r tr -> Forall (allowed W) (map fst tr).
Proof.
  assert (L : forall items chosen,
             fs_readdir W (BOOKS_DIR W) = Ok items ->
             randomPick W 0 (pdfsOf W items) = Some chosen -> allowed W (EvExtract chosen)).
  { intros items chosen Er Ec. exists items.
    destruct (randomPick_listed 0 items chosen Ec) as (d & H). now exists d. }
  assert (B : forall chosen b f k,
             reachesLoop W chosen b f ->
             Forall (allowed W) (map fst (callsBeforeLoop W chosen ++ repeat (done (EvChat b f)) k))).
  { intros chosen b f k R. rewrite map_app, map_repeat. apply Forall_app. split.
    - repeat constructor. apply (reachesLoop_listed chosen b f R).
    - apply Forall_repeat_one. apply (reachesLoop_usable chosen b f R). }
  destruct 1;
    try (rewrite app_assoc, map_app; apply Forall_app; split; [now apply B|]);
    cbn [map]; repeat (apply Forall_cons || apply Forall_nil); cbn [fst done];
    first [ exact I | reflexivity | assumption
          | eapply L; eassumption
          | eapply reachesLoop_usable; eassumption ].
Qed.

End RunTraces.

Section RunProperties.
Context {host : Host}.
Variable W : World.

Lemma runOnce_allowed : Forall (allowed W) (map fst (snd (runOnce W []))).
Proof.
  destruct (runOnce_outcome W) as (r & tr & B & E & _). rewrite E, map_app.
  apply Forall_app. split; [now apply (Body_allowed W r tr)|].
  destruct r; repeat constructor.
Qed.

(** X13.  The model is only ever sent fragments the classifier found usable,
    of 220 to 1600 code units: no junk is paid for. *)
Theorem runOnce_model_sees_usable b f :
  In (EvChat b f) (map fst (snd (runOnce W []))) ->
  looksLikeJunk f = false /\ 220 <= length f /\ length f <= 1600.
Proof.
  intros H. apply (proj1 (Forall_forall _ _) runOnce_allowed (EvChat b f) H).
Qed.

(** X14.  What is handed to the append to the log as the quote is a truthy
    value: not [undefined] (a missing [cita]), not [null], not [false] and
    not the empty string. *)
Theorem runOnce_appends_truthy c r b :
  In (EvAppend c r b) (map fst (snd (runOnce W []))) ->
  truthy c = true
  /\ c <> VUndefined /\ c <> VNull /\ c <> VBool false /\ c <> VString [].
Proof.
  intros H.
  pose proof (proj1 (Forall_forall _ _) runOnce_allowed (EvAppend c r b) H) as T.
  cbn [allowed] in T. split; [exact T|].
  repeat split; intros ->; discriminate T.
Qed.

(** X15.  The only folder listed is [BOOKS_DIR], and the only file handed to
    the PDF extraction is an entry of that listing that is a file and whose
    lower-cased name ends in ".pdf", joined to the folder. *)
Theorem runOnce_extracts_listed :
  (forall dir, In (EvReaddir dir) (map fst (snd (runOnce W []))) -> dir = BOOKS_DIR W)
  /\ (forall filePath,
        In (EvExtract filePath) (map fst (snd (runOnce W []))) ->
        exists items d,
          fs_readdir W (BOOKS_DIR W) = Ok items /\ In d items /\ d_isFile d = true
          /\ endsWith (toLowerCase (d_name d)) (lit ".pdf") = true
          /\ filePath = path_join (BOOKS_DIR W) (d_name d)).
Proof.
  split; intros x H.
  - apply (proj1 (Forall_forall _ _) runOnce_allowed (EvReaddir x) H).
  - apply (proj1 (Forall_forall _ _) runOnce_allowed (EvExtract x) H).
Qed.

Ltac count_calls :=
  unfold countNotify, callsBeforeLoop;
  rewrite ?filter_app, ?length_app;
  rewrite ?filter_repeat_none by reflexivity;
  cbn; lia.

(** X16.  Every run tells the user how it went: its last call is a
    notification.  It lists the folder first and once, extracts at most one
    file, appends at most once, and notifies once or, when the guarded block
    throws after or in a notification, twice. *)
Theorem runOnce_always_notifies :
  (exists pre c, snd (runOnce W []) = pre ++ [c] /\ isNotify c = true)
  /\ (exists x rest, snd (runOnce W []) = (EvReaddir (BOOKS_DIR W), x) :: rest)
  /\ length (filter isReaddir (snd (runOnce W []))) = 1
  /\ length (filter isExtract (snd (runOnce W []))) <= 1
  /\ length (filter isAppend (snd (runOnce W []))) <= 1
  /\ 1 <= countNotify (snd (runOnce W []))
  /\ countNotify (snd (runOnce W [])) <= 2.
Proof.
  destruct (runOnce_outcome W) as (r & tr & B & E & _). rewrite E. clear E.
  destruct B as [e _
                | items answer _ _ _
                | items _ _ _
                | items chosen e _ _ _
                | items chosen text answer _ _ _ _ _
                | chosen b f k e _ _ _ _
                | chosen b f k json e _ _ _ _ _
                | chosen b f k json filePath answer _ _ _ _ _ _
                | chosen b f answer _ _ _].
  - split; [now eexists _, _|]. split; [now eexists _, _|]. repeat split; count_calls.
  - split.
    + destruct answer as [u|e];
        [exists [done (EvReaddir (BOOKS_DIR W))]; now eexists | now eexists _, _].
    + split; [now eexists _, _|]. destruct answer; repeat split; count_calls.
  - split; [now eexists _, _|]. split; [now eexists _, _|]. repeat split; count_calls.
  - split; [now eexists _, _|]. split; [now eexists _, _|]. repeat split; count_calls.
  - split.
    + destruct answer as [u|e];
        [exists [done (EvReaddir (BOOKS_DIR W)); done (EvExtract chosen)]; now eexists
        | now eexists _, _].
    + split; [now eexists _, _|]. destruct answer; repeat split; count_calls.
  - split; [now eexists _, _|]. split; [now eexists _, _|]. repeat split; count_calls.
  - split; [now eexists _, _|]. split; [now eexists _, _|]. repeat split; count_calls.
  - split.
    + destruct answer as [u|e]; [|now eexists _, _].
      exists (callsBeforeLoop W chosen ++ repeat (done (EvChat b f)) (S k)
              ++ [done (EvAppend (getProp json cita) (getProp json reflexion) b)]).
      eexists. split; [cbn [failure]; rewrite app_nil_r, <- !app_assoc; reflexivity | reflexivity].
    + split; [now eexists _, _|]. destruct answer; repeat split; count_calls.
  - split.
    + destruct answer as [u|e]; [|now eexists _, _].
      exists (callsBeforeLoop W chosen ++ repeat (done (EvChat b f)) 6).
      eexists. split; [cbn [failure]; rewrite app_nil_r, <- !app_assoc; reflexivity | reflexivity].
    + split; [now eexists _, _|]. destruct answer; repeat split; count_calls.
Qed.

End RunProperties.

Section RunEndings.
Context {host : Host}.
Variable W : World.

Lemma runOnce_notice tr title body :
  countNotify tr = 0 ->
  runBody W [] = notify W title body tr ->
  runOnce W [] = endsWithNotice W tr title body.
Proof.
  intros C E. rewrite runOnce_trace, E. unfold notify, perform, endsWithNotice. rewrite C.
  destruct (notifier_notify W 0 title body) as [[]|e]; cbn [failure]; [reflexivity|].
  rewrite countNotify_app, C. cbn. now rewrite <- app_assoc.
Qed.

(** X17.  A folder without a PDF file (none listed, or none that is a file
    with a name ending in ".pdf") ends the run at once: the listing, the
    notification that no PDF was found, and nothing else unless that
    notification throws, which the error notification then reports. *)
Theorem runOnce_no_pdfs items :
  fs_readdir W (BOOKS_DIR W) = Ok items ->
  filter isPdf items = [] ->
  runOnce W []
  = endsWithNotice W [done (EvReaddir (BOOKS_DIR W))] titleOraculo (NoPdfs (BOOKS_DIR W)).
Proof.
  intros Er Ep. apply runOnce_notice; [reflexivity|].
  unfold runBody, listPdfs, bind, perform, ret. now rewrite Er, Ep.
Qed.

(** X18.  A text from which no fragment can be picked ends the run without a
    call to the model: the listing, the extraction, and the notification
    that no decent fragment was found. *)
Theorem runOnce_no_fragment items chosen text :
  fs_readdir W (BOOKS_DIR W) = Ok items ->
  randomPick W 0 (pdfsOf W items) = Some chosen ->
  pdf_text W chosen = Ok text ->
  pickFragment (fun k => math_random W (S k))
               (match text with Some t => t | None => [] end) = None ->
  runOnce W []
  = endsWithNotice W [done (EvReaddir (BOOKS_DIR W)); done (EvExtract chosen)]
      titleOraculo (NoFragment (path_basename chosen)).
Proof.
  intros Er Ec Et Ef. apply runOnce_notice; [reflexivity|].
  unfold runBody, listPdfs, bind, perform, ret. rewrite Er. fold (pdfsOf W items).
  destruct (pdfsOf W items) as [|p ps] eqn:Ep;
    [unfold randomPick in Ec; destruct (math_random W 0); discriminate Ec|].
  rewrite Ec. unfold extractPdfText, bind, perform, ret. now rewrite Et, Ef.
Qed.

(** X19.  When a call to the model throws, after [k] soft failures, the run
    stops calling the model: its calls are [k + 1] calls to the model, the
    last one thrown, then the error notification with the text of what was
    thrown; nothing is appended to the log. *)
Theorem runOnce_model_throws chosen b f k e :
  reachesLoop W chosen b f ->
  k < 6 -> softRange W b f 0 k ->
  groq_chat W k b f = Throw e ->
  runOnce W []
  = (notifier_notify W 0 titleError (ErrorText (errorText e)),
     callsBeforeLoop W chosen ++ repeat (done (EvChat b f)) k
     ++ [(EvChat b f, Some e);
         (errorNotice e, failure (notifier_notify W 0 titleError (ErrorText (errorText e))))]).
Proof.
  intros R K Soft E. rewrite runOnce_trace, (runBody_reaches W chosen b f R).
  unfold bind at 1. replace 6 with (k + S (5 - k)) by lia.
  rewrite queryLoop_softs by exact Soft.
  rewrite (queryLoop_throw W (5 - k) b f _ e).
  2:{ rewrite countChat_asked. exact E. }
  rewrite countNotify_app, (countNotify_before W chosen b f k).
  change (countNotify [(EvChat b f, Some e)]) with 0. cbn [Nat.add].
  unfold errorNotice. now rewrite <- !app_assoc.
Qed.

(** X20.  What becomes of a quote: when the append to the log throws, no
    success notification is made and the error notification follows; when
    the append succeeds and the success notification throws, the entry is in
    the log already and the error notification follows; otherwise the run
    returns after the two calls. *)
Theorem runOnce_quote_outcomes chosen b f k content :
  reachesLoop W chosen b f ->
  k < 6 -> softRange W b f 0 k ->
  groq_chat W k b f = Ok content ->
  softFailure (responseText content) = false ->
  let c := getProp (safeJsonParse (responseText content)) cita in
  let r := getProp (safeJsonParse (responseText content)) reflexion in
  let asked := callsBeforeLoop W chosen ++ repeat (done (EvChat b f)) (S k) in
  runOnce W []
  = match fs_appendLog W c r b with
    | Throw e =>
        (notifier_notify W 0 titleError (ErrorText (errorText e)),
         asked ++ [(EvAppend c r b, Some e);
                   (errorNotice e,
                    failure (notifier_notify W 0 titleError (ErrorText (errorText e))))])
    | Ok filePath => endsWithNotice W (asked ++ [done (EvAppend c r b)]) titleBooks
                                    (Quote c r b filePath)
    end.
Proof.
  intros R K Soft E V c r asked. rewrite runOnce_trace, (runBody_reaches W chosen b f R).
  unfold bind at 1. replace 6 with (k + S (5 - k)) by lia.
  rewrite queryLoop_softs by exact Soft.
  rewrite (queryLoop_quote W (5 - k) b f _ content);
    [| rewrite countChat_asked; exact E | exact V].
  rewrite keepQuote_cases. fold c r.
  rewrite countNotify_app, (countNotify_before W chosen b f k).
  change (countNotify [done (EvChat b f)]) with 0. cbn [Nat.add].
  replace ((callsBeforeLoop W chosen ++ repeat (done (EvChat b f)) k) ++ [done (EvChat b f)])
    with asked.
  2:{ unfold asked. change (S k) with (1 + k).
      now rewrite Nat.add_comm, repeat_app, app_assoc. }
  assert (CA : countNotify asked = 0) by apply countNotify_before.
  unfold errorNotice.
  destruct (fs_appendLog W c r b) as [filePath|e].
  - unfold endsWithNotice, errorNotice.
    destruct (notifier_notify W 0 titleBooks (Quote c r b filePath)) as [[]|e].
    + unfold ret. now rewrite <- app_assoc.
    + rewrite !countNotify_app, CA.
      change (countNotify [done (EvAppend c r b);
                           (EvNotify titleBooks (Quote c r b filePath), Some e)]) with 1.
      cbn [Nat.add]. now rewrite <- !app_assoc.
  - rewrite !countNotify_app, CA.
    change (countNotify [(EvAppend c r b, Some e)]) with 0.
    cbn [Nat.add]. now rewrite <- !app_assoc.
Qed.

(** X7.  [listPdfs] goes by the extension in any letter case, and takes
    files only: when [toLowerCase] lowers an ASCII ending in place, an entry
    whose name ends in ".pdf" in any letter case is selected exactly when it
    is a file. *)
Theorem isPdf_any_case (d : Dirent) (stem ext : jsstring) :
  lowersAsciiEnding toLowerCase ->
  d_name d = stem ++ ext -> map asciiLower ext = lit ".pdf" ->
  isPdf d = d_isFile d.
Proof.
  intros L E X. unfold isPdf. rewrite E.
  destruct (L stem ext) as (a' & ->).
  - apply asciiLower_ascii. now rewrite X.
  - rewrite X. unfold endsWith. rewrite rev_app_distr, startsWith_app. apply andb_true_r.
Qed.

End RunEndings.

(** ** Closed instances of the further properties *)

Lemma latin1_lowersAsciiEnding : lowersAsciiEnding (@toLowerCase latin1Host).
Proof.
  intros a w H. exists (map latin1Lower a).
  cbn [toLowerCase latin1Host]. rewrite map_app. f_equal.
  induction w as [|c w IH]; [easy|]. simpl in H. apply andb_true_iff in H as [Hc H].
  simpl. rewrite IH by exact H. f_equal.
  unfold latin1Lower, asciiLower, isAscii in *. apply N.ltb_lt in Hc.
  replace ((192 <=? c)%N) with false by (symmetry; apply N.leb_gt; lia).
  now rewrite andb_false_l, orb_false_r.
Qed.

(** Witness for X7: a file named Quijote.PDF. *)
Lemma isPdf_any_case_witness :
  @isPdf latin1Host {| d_name := lit "Quijote.PDF"; d_isFile := true |} = true.
Proof.
  apply (@isPdf_any_case latin1Host {| d_name := lit "Quijote.PDF"; d_isFile := true |}
           (lit "Quijote") (lit ".PDF") latin1_lowersAsciiEnding eq_refl eq_refl).
Defined.

(** Witness for X13: the fragment of the sample run. *)
Lemma runOnce_model_sees_usable_witness :
  @looksLikeJunk latin1Host sampleFragment = false
  /\ 220 <= length sampleFragment /\ length sampleFragment <= 1600.
Proof.
  apply (@runOnce_model_sees_usable latin1Host (sampleWorld answersQuoteThird notifierUp)
           sampleBook sampleFragment).
  vm_compute. do 2 right. left. reflexivity.
Defined.

(** Witness for X14: the quote of the sample run. *)
Lemma runOnce_appends_truthy_witness :
  truthy (VString (lit "X")) = true
  /\ VString (lit "X") <> VUndefined /\ VString (lit "X") <> VNull
  /\ VString (lit "X") <> VBool false /\ VString (lit "X") <> VString [].
Proof.
  apply (@runOnce_appends_truthy latin1Host (sampleWorld answersQuoteThird notifierUp)
           (VString (lit "X")) (VString (lit "Y")) sampleBook).
  vm_compute. do 5 right. left. reflexivity.
Defined.

(** Witness for X15: the file extracted in the sample run. *)
Lemma runOnce_extracts_listed_witness :
  exists items d,
    fs_readdir (sampleWorld answersQuoteThird notifierUp) (lit "/books") = Ok items
    /\ In d items /\ d_isFile d = true
    /\ endsWith (@toLowerCase latin1Host (d_name d)) (lit ".pdf") = true
    /\ samplePath = @path_join latin1Host (lit "/books") (d_name d).
Proof.
  apply (proj2 (@runOnce_extracts_listed latin1Host
                  (sampleWorld answersQuoteThird notifierUp)) samplePath).
  vm_compute. right. left. reflexivity.
Defined.

(** Witness for X17: a folder with a text file and a directory named old.pdf. *)
Lemma runOnce_no_pdfs_witness :
  @runOnce latin1Host (withListing folderWithoutPdf (sampleWorld answersQuoteThird notifierUp)) []
  = (Ok tt, [done (EvReaddir (lit "/books"));
             done (EvNotify titleOraculo (NoPdfs (lit "/books")))]).
Proof.
  apply (@runOnce_no_pdfs latin1Host
           (withListing folderWithoutPdf (sampleWorld answersQuoteThird notifierUp))
           folderWithoutPdf eq_refl eq_refl).
Defined.

(** Witness for X18: a PDF whose text is 100 letters. *)
Lemma runOnce_no_fragment_witness :
  @runOnce latin1Host (withText (Some (letters 100)) (sampleWorld answersQuoteThird notifierUp)) []
  = (Ok tt, [done (EvReaddir (lit "/books")); done (EvExtract samplePath);
             done (EvNotify titleOraculo (NoFragment sampleBook))]).
Proof.
  apply (@runOnce_no_fragment latin1Host
           (withText (Some (letters 100)) (sampleWorld answersQuoteThird notifierUp))
           [ {| d_name := lit "Quijote.PDF"; d_isFile := true |};
             {| d_name := lit "notes.txt"; d_isFile := true |} ]
           samplePath (Some (letters 100)) eq_refl eq_refl eq_refl).
  vm_compute. reflexivity.
Defined.

(** Witness for X19: SKIP, then the network is down. *)
Lemma runOnce_model_throws_witness :
  @runOnce latin1Host (sampleWorld answersThenDown notifierUp) []
  = (Ok tt,
     callsBeforeLoop (sampleWorld answersThenDown notifierUp) samplePath
     ++ repeat (done (EvChat sampleBook sampleFragment)) 1
     ++ [(EvChat sampleBook sampleFragment, Some (errorWith (lit "network")));
         done (errorNotice (errorWith (lit "network")))]).
Proof.
  refine (@runOnce_model_throws latin1Host (sampleWorld answersThenDown notifierUp)
            samplePath sampleBook sampleFragment 1 (errorWith (lit "network"))
            (sampleWorld_reaches _ _) _ _ eq_refl).
  - lia.
  - intros [|i] Hi; [eexists; split; reflexivity | lia].
Defined.

Lemma readOnlyLog_reaches :
  @reachesLoop latin1Host (withReadOnlyLog (sampleWorld answersQuoteThird notifierUp))
    samplePath sampleBook sampleFragment.
Proof.
  eexists _, _. split; [reflexivity|].
  split; [vm_compute; reflexivity|]. split; [vm_compute; reflexivity|].
  split; [reflexivity|]. split; [vm_compute; reflexivity | reflexivity].
Qed.

(** Witness for X20: a quote at the third answer, and a log that cannot be
    written. *)
Lemma runOnce_quote_outcomes_witness :
  @runOnce latin1Host (withReadOnlyLog (sampleWorld answersQuoteThird notifierUp)) []
  = (Ok tt,
     (callsBeforeLoop (withReadOnlyLog (sampleWorld answersQuoteThird notifierUp)) samplePath
      ++ repeat (done (EvChat sampleBook sampleFragment)) 3)
     ++ [(EvAppend (VString (lit "X")) (VString (lit "Y")) sampleBook,
          Some (errorWith (lit "EACCES")));
         done (errorNotice (errorWith (lit "EACCES")))]).
Proof.
  refine (@runOnce_quote_outcomes latin1Host
            (withReadOnlyLog (sampleWorld answersQuoteThird notifierUp))
            samplePath sampleBook sampleFragment 2
            (Some (responseWithCita (quoted (lit "X"))))
            readOnlyLog_reaches _ _ eq_refl eq_refl).
  - lia.
  - intros [|[|i]] Hi; [eexists; split; reflexivity | eexists; split; reflexivity | lia].
Defined.

(** ** Answers and texts at the edges *)

Lemma dropWhile_all (p : N -> bool) (a r : jsstring) :
  forallb p a = true -> dropWhile p (a ++ r) = dropWhile p r.
Proof.
  induction a as [|c a IH]; simpl; [easy|].
  rewrite andb_true_iff. intros [Hc Ha]. now rewrite Hc, IH.
Qed.

(** [trim] takes off the white space around a trimmed string, all of it and
    nothing more. *)
Lemma trim_surrounded (a m b : jsstring) :
  forallb isWhiteSpace a = true -> forallb isWhiteSpace b = true ->
  trimmed m -> trim (a ++ m ++ b) = m.
Proof.
  intros Ha Hb [Hh Hl]. unfold trim, trimEnd, trimStart.
  rewrite dropWhile_all by exact Ha.
  destruct m as [|c m'].
  - simpl app. rewrite <- (app_nil_r b), dropWhile_all by exact Hb. reflexivity.
  - change ((c :: m') ++ b) with (c :: (m' ++ b)).
    rewrite dropWhile_id by (now apply (Hh c m')).
    change (c :: m' ++ b) with ((c :: m') ++ b). rewrite rev_app_distr.
    rewrite dropWhile_all.
    + destruct (rev (c :: m')) as [|d q] eqn:E.
      * apply (f_equal (@rev N)) in E. now rewrite rev_involutive in E.
      * rewrite dropWhile_id.
        -- now rewrite <- E, rev_involutive.
        -- apply (Hl (rev q) d). apply (f_equal (@rev N)) in E.
           now rewrite rev_involutive in E.
    + rewrite forallb_forall in *. intros x Hx. apply Hb. now apply in_rev.
Qed.

Section Edges.
Context {host : Host}.

(** X21.  An answer that is SKIP with white space around it (spaces, line
    feeds) counts as SKIP, whatever the JSON parser would make of it. *)
Theorem skip_between_white_space (a b : jsstring) :
  forallb isWhiteSpace a = true -> forallb isWhiteSpace b = true ->
  responseText (Some (a ++ SKIP ++ b)) = SKIP
  /\ softFailure (responseText (Some (a ++ SKIP ++ b))) = true.
Proof.
  intros Ha Hb.
  assert (E : responseText (Some (a ++ SKIP ++ b)) = SKIP).
  { cbn [responseText]. apply trim_surrounded; trivial. split.
    - intros c r [= <- _]. reflexivity.
    - intros r c H. apply (f_equal (@rev N)) in H. rewrite rev_app_distr in H.
      simpl in H. now injection H as <- _. }
  split; [exact E|]. now rewrite E.
Qed.

(** X22.  A text without a blank line is one paragraph at most, and yields no
    fragment however long it is. *)
Theorem pickFragment_needs_blank_lines draw fullText :
  includes (normalizeText fullText) [LF; LF] = false ->
  length (paragraphs (normalizeText fullText)) <= 1
  /\ pickFragment draw fullText = None.
Proof.
  intros H.
  assert (L : length (paragraphs (normalizeText fullText)) <= 1).
  { unfold paragraphs. rewrite splitBlank_whole.
    - simpl. destruct (nonEmpty _); simpl; lia.
    - rewrite (runsBelow_ext _ _ _ _ _ isLF_eqb).
      now apply (not_includes_runsBelow LF 2); [lia|]. }
  split; [exact L|]. unfold pickFragment.
  destruct (_ <? 800); [reflexivity|].
  now replace (_ <? 5) with true by (symmetry; apply Nat.ltb_lt; lia).
Qed.

End Edges.

(** Witness for X21: SKIP after a space and before a line feed. *)
Lemma skip_between_white_space_witness :
  responseText (Some ([SP] ++ SKIP ++ [LF])) = SKIP
  /\ @softFailure latin1Host (responseText (Some ([SP] ++ SKIP ++ [LF]))) = true.
Proof.
  apply (@skip_between_white_space latin1Host [SP] [LF] eq_refl eq_refl).
Defined.

(** Witness for X22: 2000 letters on lines of 100, without a blank line. *)
Lemma pickFragment_needs_blank_lines_witness :
  length (paragraphs (normalizeText (join [LF] (repeat (letters 100) 20)))) <= 1
  /\ @pickFragment latin1Host (fun k => k) (join [LF] (repeat (letters 100) 20)) = None.
Proof.
  apply (@pickFragment_needs_blank_lines latin1Host (fun k => k)
           (join [LF] (repeat (letters 100) 20))).
  vm_compute. reflexivity.
Defined.
